(** * Portfolio rebalancer: valuation engine, rebalance planner, health scorer

    A shallow embedding of the calculation layer of the portfolio
    rebalancer (the React component [App]) and of the operations that
    write the asset list, followed by the properties stated for them.

    JavaScript numbers are modelled as exact rationals extended with
    [Infinity], [-Infinity] and [NaN]; [undefined] (a missing property)
    is kept as a further value because the code tests for it with [||]
    and [?.].  Rounding of binary floating point and the sign of zero
    are not modelled: the arithmetic is exact. *)

From Stdlib Require Import QArith Qabs Qround Qminmax Lqa Lia ZArith.
From Stdlib Require Import Ascii String Sorting.Sorted Sorting.Permutation.
From stdpp Require Import gmap strings list.

Local Open Scope Q_scope.

(** ** JavaScript values in numeric position *)

Inductive jsnum : Type :=
  | Fin (q : Q)
  | PosInf
  | NegInf
  | NaN
  | Undef.

(** [ToNumber]: [undefined] becomes [NaN]. *)
Definition to_number (x : jsnum) : jsnum :=
  match x with Undef => NaN | _ => x end.

Definition inf_of (c : comparison) : jsnum :=
  match c with Gt => PosInf | Lt => NegInf | Eq => NaN end.

(** Sign of a number that is not [NaN]. *)
Definition sgn (x : jsnum) : comparison :=
  match x with
  | Fin q => q ?= 0
  | PosInf => Gt
  | NegInf => Lt
  | _ => Eq
  end.

Definition sgn_mul (a b : comparison) : comparison :=
  match a, b with
  | Eq, _ | _, Eq => Eq
  | Gt, Gt | Lt, Lt => Gt
  | _, _ => Lt
  end.

(** [x + y] *)
Definition add (x y : jsnum) : jsnum :=
  match to_number x, to_number y with
  | Fin a, Fin b => Fin (a + b)
  | NaN, _ | _, NaN => NaN
  | PosInf, NegInf | NegInf, PosInf => NaN
  | PosInf, _ | _, PosInf => PosInf
  | _, _ => NegInf
  end.

(** [x - y] *)
Definition sub (x y : jsnum) : jsnum :=
  match to_number x, to_number y with
  | Fin a, Fin b => Fin (a - b)
  | NaN, _ | _, NaN => NaN
  | PosInf, PosInf | NegInf, NegInf => NaN
  | PosInf, _ | _, NegInf => PosInf
  | _, _ => NegInf
  end.

(** [x * y] *)
Definition mul (x y : jsnum) : jsnum :=
  match to_number x, to_number y with
  | Fin a, Fin b => Fin (a * b)
  | NaN, _ | _, NaN => NaN
  | a, b => inf_of (sgn_mul (sgn a) (sgn b))
  end.

(** [x / y]: a finite number divided by zero is an infinity (or [NaN]
    for [0 / 0]), never an exception. *)
Definition div (x y : jsnum) : jsnum :=
  match to_number x, to_number y with
  | NaN, _ | _, NaN => NaN
  | Fin a, Fin b => if Qeq_bool b 0 then inf_of (a ?= 0) else Fin (a / b)
  | Fin _, _ => Fin 0
  | a, Fin b => inf_of (sgn_mul (sgn a) (if Qeq_bool b 0 then Gt else b ?= 0))
  | _, _ => NaN
  end.

(** [Math.abs(x)] *)
Definition Math_abs (x : jsnum) : jsnum :=
  match to_number x with
  | Fin a => Fin (Qabs a)
  | PosInf | NegInf => PosInf
  | _ => NaN
  end.

(** [x < y]: false as soon as one side is [NaN]. *)
Definition lt (x y : jsnum) : bool :=
  match to_number x, to_number y with
  | NaN, _ | _, NaN => false
  | Fin a, Fin b => match a ?= b with Lt => true | _ => false end
  | NegInf, NegInf | PosInf, _ | _, NegInf => false
  | _, _ => true
  end.

(** [x > y] *)
Definition gt (x y : jsnum) : bool := lt y x.

(** [x === 0] *)
Definition is_zero (x : jsnum) : bool :=
  match x with Fin a => Qeq_bool a 0 | _ => false end.

(** Truthiness: [0], [NaN] and [undefined] are falsy. *)
Definition truthy (x : jsnum) : bool :=
  match x with
  | Fin a => negb (Qeq_bool a 0)
  | PosInf | NegInf => true
  | NaN | Undef => false
  end.

(** [x || y] *)
Definition or (x y : jsnum) : jsnum := if truthy x then x else y.

(** [Math.max(x, y)] and [Math.min(x, y)]: [NaN] if either is. *)
Definition Math_max (x y : jsnum) : jsnum :=
  match to_number x, to_number y with
  | NaN, _ | _, NaN => NaN
  | a, b => if lt a b then b else a
  end.

Definition Math_min (x y : jsnum) : jsnum :=
  match to_number x, to_number y with
  | NaN, _ | _, NaN => NaN
  | a, b => if lt b a then b else a
  end.

(** [Math.round(x)]: the integer nearest to [x], halves going up. *)
Definition Math_round (x : jsnum) : jsnum :=
  match to_number x with
  | Fin a => Fin (inject_Z (Qfloor (a + (1 # 2))))
  | y => y
  end.

(** Equality of values up to the representation of the rational. *)
Definition num_eq (x y : jsnum) : Prop :=
  match x, y with
  | Fin a, Fin b => a == b
  | PosInf, PosInf | NegInf, NegInf | NaN, NaN | Undef, Undef => True
  | _, _ => False
  end.

Definition is_fin (x : jsnum) : bool :=
  match x with Fin _ => true | _ => false end.

(** The rational held by a finite number ([0] for anything else). *)
Definition toQ (x : jsnum) : Q :=
  match x with Fin a => a | _ => 0 end.

(** ** Assets and application state *)

Record asset : Type := mkAsset {
  id : string;
  symbol : string;
  name : string;
  thumb : string;
  holdings : jsnum;
  targetPercent : jsnum;
  buyPrice : jsnum;
  category : option string;   (* [None] is [null] *)
  priceEur : jsnum;
  priceUsd : jsnum;
  change24h : jsnum
}.

(** The React state the calculations read. [totalValue] is a state cell
    of its own, written by an effect after [assets] or [currency]
    change. *)
Record state : Type := mkState {
  assets : list asset;
  currency : string;
  totalValue : jsnum
}.

(** [currency === 'eur' ? asset.priceEur : asset.priceUsd] *)
Definition price_in (cur : string) (a : asset) : jsnum :=
  if String.eqb cur "eur" then priceEur a else priceUsd a.

(** The total-value effect:
    [assets.reduce((sum, asset) => sum + asset.holdings * (price || 0), 0)] *)
Definition calcTotal (l : list asset) (cur : string) : jsnum :=
  fold_left (fun sum a => add sum (mul (holdings a) (or (price_in cur a) (Fin 0))))
            l (Fin 0).

(** The state once the total-value effect has run. Between a change of
    the list and that effect the cell still holds the previous total;
    the properties below are about the state the effect leaves. *)
Definition settle (l : list asset) (cur : string) : state :=
  mkState l cur (calcTotal l cur).

(** ** Valuation engine *)

Definition getAssetValue (st : state) (a : asset) : jsnum :=
  let price := price_in (currency st) a in
  mul (holdings a) (or price (Fin 0)).

Definition getCurrentPercent (st : state) (a : asset) : jsnum :=
  if is_zero (totalValue st) then Fin 0
  else mul (div (getAssetValue st a) (totalValue st)) (Fin 100).

Definition totalPnL (st : state) : jsnum :=
  fold_left (fun sum a =>
               let price := price_in (currency st) a in
               let currentValue := mul (holdings a) (or price (Fin 0)) in
               let costBasis := mul (holdings a) (or (buyPrice a) (Fin 0)) in
               add sum (sub currentValue costBasis))
            (assets st) (Fin 0).

Definition totalCostBasis (st : state) : jsnum :=
  fold_left (fun sum a => add sum (mul (holdings a) (or (buyPrice a) (Fin 0))))
            (assets st) (Fin 0).

Definition pnlPercent (st : state) : jsnum :=
  if gt (totalCostBasis st) (Fin 0)
  then mul (div (totalPnL st) (totalCostBasis st)) (Fin 100)
  else Fin 0.

Definition totalTargetPercent (st : state) : jsnum :=
  fold_left (fun sum a => add sum (or (targetPercent a) (Fin 0))) (assets st) (Fin 0).

(** ** Rebalance planner *)

Inductive direction : Type := BUY | SELL.

Record rebalance : Type := mkRebalance {
  action : direction;
  amount : jsnum;
  units : jsnum
}.

(** [None] is the [null] the code returns for a balanced asset. *)
Definition getRebalanceAction (st : state) (a : asset) : option rebalance :=
  let currentValue := getAssetValue st a in
  let targetValue := mul (div (or (targetPercent a) (Fin 0)) (Fin 100)) (totalValue st) in
  let difference := sub targetValue currentValue in
  let price := price_in (currency st) a in
  if lt (Math_abs difference) (Fin 1) then None
  else Some {| action := if gt difference (Fin 0) then BUY else SELL;
               amount := Math_abs difference;
               units := if gt price (Fin 0) then Math_abs (div difference price) else Fin 0 |}.

(** ** Health scorer *)

(** What evaluating a piece of the component gives: a value, or an
    exception that unwinds the render. *)
Inductive js_error : Type :=
  | ReferenceError (name : string).

Inductive completion (A : Type) : Type :=
  | Normal (a : A)
  | Throw (e : js_error).

Arguments Normal {A} a.
Arguments Throw {A} e.

Definition and_then {A B : Type} (c : completion A) (k : A -> completion B) : completion B :=
  match c with
  | Normal a => k a
  | Throw e => Throw e
  end.

Notation "x <- c ;; k" := (and_then c (fun x => k))
  (at level 100, c at next level, right associativity).

(** A [const] of the component body: it exists from the start of the
    body but holds nothing until the line that declares it has run, and
    reading it before that throws. *)
Inductive binding (A : Type) : Type :=
  | Uninitialized
  | Initialized (v : A).

Arguments Uninitialized {A}.
Arguments Initialized {A} v.

Definition read_const {A : Type} (name : string) (b : binding A) : completion A :=
  match b with
  | Initialized v => Normal v
  | Uninitialized => Throw (ReferenceError name)
  end.

(** [l.reduce(f, init)] for a callback that may throw: the first
    exception ends the reduction. *)
Fixpoint Array_reduce {A B : Type} (f : B -> A -> completion B) (l : list A) (acc : B)
    : completion B :=
  match l with
  | [] => Normal acc
  | x :: l' => acc' <- f acc x ;; Array_reduce f l' acc'
  end.

(** The reduce of [calculateHealthScore]. Its callback reads the
    component's [getAssetValue], whose binding is a parameter here. *)
Definition totalDeviation (getAssetValue : binding (asset -> jsnum)) (st : state)
    : completion jsnum :=
  Array_reduce
    (fun sum asset =>
       getAssetValue <- read_const "getAssetValue" getAssetValue ;;
       let currentPercent := mul (div (getAssetValue asset) (totalValue st)) (Fin 100) in
       let targetPercent := or (targetPercent asset) (Fin 0) in
       Normal (add sum (Math_abs (sub currentPercent targetPercent))))
    (assets st) (Fin 0).

Definition calculateHealthScore (getAssetValue : binding (asset -> jsnum)) (st : state)
    : completion jsnum :=
  if (length (assets st) =? 0)%nat || is_zero (totalValue st) then Normal (Fin 100)
  else
    totalDeviation <- totalDeviation getAssetValue st ;;
    let score := Math_max (Fin 0) (sub (Fin 100) (div totalDeviation (Fin 2))) in
    Normal (Math_round score).

(** [const healthScore = calculateHealthScore();] The component body
    evaluates this call before it reaches [const getAssetValue = ...],
    which comes further down: at the call the binding is uninitialised. *)
Definition healthScore (st : state) : completion jsnum :=
  calculateHealthScore Uninitialized st.

(** ** Listing order *)

(** [Array.prototype.sort(compare)] for a comparator returning a number:
    [x] goes after [y] only when [compare(x, y) > 0]; elements the
    comparator does not separate keep their order (the sort is stable). *)
Section Sort.
Context {A : Type} (compare : A -> A -> jsnum).

Fixpoint sort_insert (x : A) (l : list A) : list A :=
  match l with
  | [] => [x]
  | y :: l' => if gt (compare x y) (Fin 0) then y :: sort_insert x l' else x :: l
  end.

Fixpoint Array_sort (l : list A) : list A :=
  match l with
  | [] => []
  | x :: l' => sort_insert x (Array_sort l')
  end.
End Sort.

(** The comparator of [sortedAssets]: [(a, b) => valueB - valueA]. *)
Definition byValueDesc (cur : string) (a b : asset) : jsnum :=
  let priceA := price_in cur a in
  let priceB := price_in cur b in
  sub (mul (holdings b) (or priceB (Fin 0))) (mul (holdings a) (or priceA (Fin 0))).

Definition sortedAssets (st : state) : list asset :=
  Array_sort (byValueDesc (currency st)) (assets st).

(** ** User input *)

Definition is_space (c : ascii) : bool :=
  let n := nat_of_ascii c in
  (n =? 32)%nat || ((9 <=? n)%nat && (n <=? 13)%nat).

Fixpoint skip_spaces (s : string) : string :=
  match s with
  | String c s' => if is_space c then skip_spaces s' else s
  | EmptyString => s
  end.

Definition digit_of (c : ascii) : option Z :=
  let n := nat_of_ascii c in
  if (48 <=? n)%nat && (n <=? 57)%nat then Some (Z.of_nat (n - 48)) else None.

(** Reads a run of decimal digits: its value, its length, what follows. *)
Fixpoint read_digits (s : string) (acc : Z) (n : nat) : Z * nat * string :=
  match s with
  | String c s' =>
      match digit_of c with
      | Some d => read_digits s' (10 * acc + d)%Z (S n)
      | None => (acc, n, s)
      end
  | EmptyString => (acc, n, s)
  end.

(** Reads an optional sign: [true] for a minus. *)
Definition read_sign (s : string) : bool * string :=
  match s with
  | String "-" s' => (true, s')
  | String "+" s' => (false, s')
  | _ => (false, s)
  end.

Definition read_exponent (s : string) : Z :=
  match s with
  | String c s' =>
      if Ascii.eqb c "e" || Ascii.eqb c "E" then
        let '(neg, s1) := read_sign s' in
        let '(e, n, _) := read_digits s1 0%Z 0%nat in
        if (n =? 0)%nat then 0%Z else if neg then (- e)%Z else e
      else 0%Z
  | EmptyString => 0%Z
  end.

(** [parseFloat(s)]: the value of the longest prefix of [s], after
    leading white space, that is a decimal literal; [NaN] if there is
    none. *)
Definition parseFloat (s : string) : jsnum :=
  let '(neg, s1) := read_sign (skip_spaces s) in
  if String.prefix "Infinity" s1 then (if neg then NegInf else PosInf)
  else
    let '(i, ni, s2) := read_digits s1 0%Z 0%nat in
    let '(f, nf, s3) :=
      match s2 with
      | String "." s2' => read_digits s2' 0%Z 0%nat
      | _ => (0%Z, 0%nat, s2)
      end in
    if (ni + nf =? 0)%nat then NaN
    else
      let m := inject_Z i + inject_Z f / inject_Z (10 ^ Z.of_nat nf) in
      let v := m * Qpower 10 (read_exponent s3) in
      Fin (if neg then - v else v).

(** A value handed to an update: a string from an input element, or
    [null]. [parseFloat] first converts its argument to a string. *)
Definition parseFloat_value (v : option string) : jsnum :=
  parseFloat (match v with Some s => s | None => "null" end).

(** ** Operations on the asset list *)

Definition setAssets (st : state) (l : list asset) : state :=
  mkState l (currency st) (totalValue st).

Definition upper_ascii (c : ascii) : ascii :=
  let n := nat_of_ascii c in
  if (97 <=? n)%nat && (n <=? 122)%nat then ascii_of_nat (n - 32) else c.

Fixpoint toUpperCase (s : string) : string :=
  match s with
  | String c s' => String (upper_ascii c) (toUpperCase s')
  | EmptyString => EmptyString
  end.

(** A search result. *)
Record coin : Type := mkCoin {
  coin_id : string;
  coin_symbol : string;
  coin_name : string;
  coin_thumb : string
}.

Definition addAsset (st : state) (c : coin) : state :=
  match find (fun a => String.eqb (id a) (coin_id c)) (assets st) with
  | Some _ => st
  | None =>
      let newAsset :=
        {| id := coin_id c;
           symbol := toUpperCase (coin_symbol c);
           name := coin_name c;
           thumb := coin_thumb c;
           holdings := Fin 0;
           targetPercent := Fin 0;
           buyPrice := Fin 0;
           category := None;
           priceEur := Fin 0;
           priceUsd := Fin 0;
           change24h := Fin 0 |} in
      setAssets st (assets st ++ [newAsset])
  end.

Definition removeAsset (st : state) (i : string) : state :=
  setAssets st (List.filter (fun a => negb (String.eqb (id a) i)) (assets st)).

(** The properties [updateAsset] is called on. *)
Inductive field : Type := holdings_f | buyPrice_f | targetPercent_f | category_f.

Definition set_field (a : asset) (f : field) (value : option string) : asset :=
  let n := or (parseFloat_value value) (Fin 0) in
  match f with
  | category_f =>
      mkAsset (id a) (symbol a) (name a) (thumb a) (holdings a) (targetPercent a)
              (buyPrice a) value (priceEur a) (priceUsd a) (change24h a)
  | holdings_f =>
      mkAsset (id a) (symbol a) (name a) (thumb a) n (targetPercent a)
              (buyPrice a) (category a) (priceEur a) (priceUsd a) (change24h a)
  | buyPrice_f =>
      mkAsset (id a) (symbol a) (name a) (thumb a) (holdings a) (targetPercent a)
              n (category a) (priceEur a) (priceUsd a) (change24h a)
  | targetPercent_f =>
      mkAsset (id a) (symbol a) (name a) (thumb a) (holdings a) n
              (buyPrice a) (category a) (priceEur a) (priceUsd a) (change24h a)
  end.

(** [{ ...a, [field]: field === 'category' ? value : (parseFloat(value) || 0) }] *)
Definition updateAsset (st : state) (i : string) (f : field) (value : option string) : state :=
  setAssets st (map (fun a => if String.eqb (id a) i then set_field a f value else a)
                    (assets st)).

(** The two writers of [src/App.jsx]. *)
Definition updateHoldings (st : state) (i : string) (value : string) : state :=
  setAssets st
    (map (fun a =>
            if String.eqb (id a) i
            then mkAsset (id a) (symbol a) (name a) (thumb a)
                         (or (parseFloat value) (Fin 0)) (targetPercent a)
                         (buyPrice a) (category a) (priceEur a) (priceUsd a) (change24h a)
            else a)
         (assets st)).

Definition updateTarget (st : state) (i : string) (value : string) : state :=
  let newValue := Math_min (Fin 100) (Math_max (Fin 0) (or (parseFloat value) (Fin 0))) in
  setAssets st
    (map (fun a =>
            if String.eqb (id a) i
            then mkAsset (id a) (symbol a) (name a) (thumb a)
                         (holdings a) newValue
                         (buyPrice a) (category a) (priceEur a) (priceUsd a) (change24h a)
            else a)
         (assets st)).

(** ** Price refresh *)

(** One entry of the price source's answer; a property the answer does
    not carry is [Undef]. *)
Record quote : Type := mkQuote {
  eur : jsnum;
  usd : jsnum;
  eur_24h_change : jsnum
}.

(** [data[i]?.prop] *)
Definition quote_get (data : gmap string quote) (i : string) (prop : quote -> jsnum) : jsnum :=
  match data !! i with
  | Some q => prop q
  | None => Undef
  end.

(** The updater [fetchPrices] hands to [setAssets]. *)
Definition mergePrices (data : gmap string quote) (prev : list asset) : list asset :=
  map (fun asset =>
         mkAsset (id asset) (symbol asset) (name asset) (thumb asset)
                 (holdings asset) (targetPercent asset) (buyPrice asset) (category asset)
                 (or (or (quote_get data (id asset) eur) (priceEur asset)) (Fin 0))
                 (or (or (quote_get data (id asset) usd) (priceUsd asset)) (Fin 0))
                 (or (quote_get data (id asset) eur_24h_change) (Fin 0)))
      prev.

(** Completion of [fetchPrices]: [None] is a request that failed (the
    [catch] branch), which leaves the state as it is. The early return
    on an empty list needs no case of its own: merging into an empty
    list gives an empty list. *)
Definition fetchPrices (st : state) (response : option (gmap string quote)) : state :=
  match response with
  | Some data => setAssets st (mergePrices data (assets st))
  | None => st
  end.

(** The updater of the price request [addAsset] issues for the new coin. *)
Definition mergeNewPrice (data : gmap string quote) (coinId : string) (prev : list asset) : list asset :=
  map (fun asset =>
         if String.eqb (id asset) coinId
         then mkAsset (id asset) (symbol asset) (name asset) (thumb asset)
                      (holdings asset) (targetPercent asset) (buyPrice asset) (category asset)
                      (or (quote_get data coinId eur) (Fin 0))
                      (or (quote_get data coinId usd) (Fin 0))
                      (or (quote_get data coinId eur_24h_change) (Fin 0))
         else asset)
      prev.

(** ** Reference quantities of the valuation, over the rationals

    These follow the specification's wording: the value of an asset is
    its holdings times its price in the selected currency, a missing
    price counting as 0, and the totals are sums over the list. *)

Definition Qsum (l : list Q) : Q := fold_right Qplus 0 l.

Definition qprice (cur : string) (a : asset) : Q := toQ (price_in cur a).

Definition qvalue (cur : string) (a : asset) : Q := toQ (holdings a) * qprice cur a.

Definition qtotal (cur : string) (l : list asset) : Q := Qsum (map (qvalue cur) l).

Definition qcost (a : asset) : Q := toQ (holdings a) * toQ (buyPrice a).

Definition qpercent (cur : string) (l : list asset) (a : asset) : Q :=
  qvalue cur a / qtotal cur l * 100.

Definition qdeviation (cur : string) (l : list asset) : Q :=
  Qsum (map (fun a => Qabs (qpercent cur l a - toQ (targetPercent a))) l).

(** [n] is an integer nearest to [x]. *)
Definition nearest_integer (x : Q) (n : Z) : Prop := Qabs (inject_Z n - x) <= 1 # 2.

(** Neither infinity. *)
Definition bounded (x : jsnum) : bool :=
  match x with PosInf | NegInf => false | _ => true end.

(** The assets of the data model: holdings is a finite number, and no
    numeric field the calculations read is infinite (a price, target or
    buy price may be missing). *)
Definition well_formed (a : asset) : bool :=
  is_fin (holdings a) && bounded (targetPercent a) && bounded (buyPrice a)
  && bounded (priceEur a) && bounded (priceUsd a).

(** ** Sample portfolios

    The scenarios of the specification's test section, priced in euro. *)

Definition sample_asset (i : string) (h target buy price : Q) : asset :=
  mkAsset i (toUpperCase i) i "" (Fin h) (Fin target) (Fin buy) None
          (Fin price) (Fin price) (Fin 0).

(** Scenario B: one unit at 100 and nothing of a coin at 50, both
    targeted at 50%. *)
Definition coinB1 : asset := sample_asset "btc" 1 50 0 100.
Definition coinB2 : asset := sample_asset "eth" 0 50 0 50.
Definition scenarioB : list asset := [coinB1; coinB2].

(** Scenario D: five units bought at 80, now at 100. *)
Definition coinD : asset := sample_asset "sol" 5 100 80 100.
Definition scenarioD : list asset := [coinD].

(** Three coins, two of them worth the same. *)
Definition coinT : asset := sample_asset "ada" 2 0 0 50.
Definition scenarioTie : list asset := [coinB2; coinB1; coinT].

(** A number, as opposed to [NaN] or a missing property. *)
Definition is_number (x : jsnum) : bool :=
  match x with NaN | Undef => false | _ => true end.

(** An answer of the price source that quotes bitcoin at 0 euro and
    knows nothing of the other coins. *)
Definition zero_quote : gmap string quote :=
  {[ "btc" := mkQuote (Fin 0) (Fin 108) (Fin 2) ]}.

(** ** Invariants of the data model *)

(** A non-negative real. *)
Definition nonneg (x : jsnum) : bool :=
  match x with Fin q => Qle_bool 0 q | _ => false end.

(** A real in [0, 100]. *)
Definition percent_ok (x : jsnum) : bool :=
  match x with Fin q => Qle_bool 0 q && Qle_bool q 100 | _ => false end.

Definition asset_invariant (a : asset) : bool :=
  nonneg (holdings a) && nonneg (buyPrice a) && nonneg (priceEur a)
  && nonneg (priceUsd a) && percent_ok (targetPercent a).

(** Every numeric field holds a number. *)
Definition numeric (a : asset) : bool :=
  is_number (holdings a) && is_number (buyPrice a) && is_number (targetPercent a)
  && is_number (priceEur a) && is_number (priceUsd a).

(** What an input or a quote has to be for a write to keep a field
    non-negative: a non-negative real, or nothing that reads as a
    number. *)
Definition nonneg_or_missing (x : jsnum) : bool :=
  match x with
  | Fin q => Qle_bool 0 q
  | NaN | Undef => true
  | PosInf | NegInf => false
  end.

Definition quotes_nonneg (data : gmap string quote) : Prop :=
  forall k q, data !! k = Some q ->
    nonneg_or_missing (eur q) = true /\ nonneg_or_missing (usd q) = true.

Definition invariants (st : state) : Prop :=
  Forall (fun a => asset_invariant a = true) (assets st).

(** The invariants as something every writer of the asset list keeps. *)
Definition every_write_keeps_invariants : Prop :=
  forall st, invariants st ->
    (forall c, invariants (addAsset st c))
    /\ (forall i, invariants (removeAsset st i))
    /\ (forall i f v, invariants (updateAsset st i f v))
    /\ (forall i v, invariants (updateHoldings st i v))
    /\ (forall i v, invariants (updateTarget st i v))
    /\ (forall data, quotes_nonneg data -> invariants (fetchPrices st (Some data))).

(** ** Category views *)

(** [sortedAssets.filter(a => a.category === 'safe')] and its siblings.
    [!a.category] holds for [null] and for the empty string. *)
Definition safeAssets (st : state) : list asset :=
  List.filter (fun a => match category a with Some c => String.eqb c "safe" | None => false end)
              (sortedAssets st).

Definition riskyAssets (st : state) : list asset :=
  List.filter (fun a => match category a with Some c => String.eqb c "risky" | None => false end)
              (sortedAssets st).

Definition uncategorized (st : state) : list asset :=
  List.filter (fun a => match category a with Some c => String.eqb c "" | None => true end)
              (sortedAssets st).

Definition getCategoryValue (st : state) (categoryAssets : list asset) : jsnum :=
  fold_left (fun sum a =>
               let price := price_in (currency st) a in
               add sum (mul (holdings a) (or price (Fin 0))))
            categoryAssets (Fin 0).

Definition getCategoryTarget (categoryAssets : list asset) : jsnum :=
  fold_left (fun sum a => add sum (or (targetPercent a) (Fin 0))) categoryAssets (Fin 0).

(** ** Chart data *)

Definition colors : list string :=
  ["#E84A9C"; "#F5D547"; "#5B9A6F"; "#00b8d4"; "#9C6ADE"; "#ff6b6b"; "#ffa94d"; "#74b9ff"].

(** [l.findIndex(p)]: the first position where [p] holds, [-1] if none. *)
Fixpoint findIndex_from {A : Type} (p : A -> bool) (l : list A) (i : Z) : Z :=
  match l with
  | [] => (-1)%Z
  | x :: l' => if p x then i else findIndex_from p l' (i + 1)%Z
  end.

Definition findIndex {A : Type} (p : A -> bool) (l : list A) : Z := findIndex_from p l 0%Z.

(** [colors[z]]: [None] is the [undefined] read outside the array. *)
Definition color_at (z : Z) : option string :=
  if (z <? 0)%Z then None else colors !! Z.to_nat z.

(** One slice of a pie chart. *)
Record slice : Type := mkSlice {
  label : string;
  value : jsnum;
  color : option string
}.

Definition currentAllocationData (st : state) : list slice :=
  imap (fun i asset =>
          mkSlice (symbol asset) (getAssetValue st asset)
                  (color_at (Z.rem (Z.of_nat i) (Z.of_nat (length colors)))))
       (List.filter (fun a => gt (getAssetValue st a) (Fin 0)) (sortedAssets st)).

(** The colour of an asset's card, and of its slice of the target chart:
    [colors[sortedAssets.findIndex(a => a.id === asset.id) % colors.length]]. *)
Definition assetColor (st : state) (asset : asset) : option string :=
  color_at (Z.rem (findIndex (fun a => String.eqb (id a) (id asset)) (sortedAssets st))
                  (Z.of_nat (length colors))).

Definition targetAllocationData (st : state) : list slice :=
  map (fun asset =>
         mkSlice (symbol asset) (or (targetPercent asset) (Fin 0)) (assetColor st asset))
      (List.filter (fun a => gt (or (targetPercent a) (Fin 0)) (Fin 0)) (sortedAssets st)).

(** The planner's difference over the reference quantities. *)
Definition qdifference (cur : string) (l : list asset) (a : asset) : Q :=
  toQ (targetPercent a) / 100 * qtotal cur l - qvalue cur a.

(** Scenario B with a third coin and category tags. *)
Definition tagged (a : asset) (c : string) : asset :=
  mkAsset (id a) (symbol a) (name a) (thumb a) (holdings a) (targetPercent a)
          (buyPrice a) (Some c) (priceEur a) (priceUsd a) (change24h a).

Definition scenarioTagged : list asset :=
  [tagged coinB1 "safe"; coinB2; tagged coinT "risky"].

(** What an action moves, counted positive for a buy and negative for a
    sale; nothing for a balanced asset. *)
Definition signedAmount (st : state) (a : asset) : Q :=
  match getRebalanceAction st a with
  | Some r => if action r is BUY then toQ (amount r) else - toQ (amount r)
  | None => 0
  end.

(** The number of assets of a list the planner reports as balanced. *)
Definition balancedCount (st : state) (l : list asset) : nat :=
  length (List.filter (fun a => if getRebalanceAction st a is None then true else false) l).

(** The categories the component writes: none, safe, risky. *)
Definition known_category (a : asset) : bool :=
  match category a with
  | None => true
  | Some c => String.eqb c "safe" || String.eqb c "risky"
  end.

(** No two assets of the list share an id. *)
Definition unique_ids (l : list asset) : Prop := NoDup (map id l).

(** * Properties *)

(** ** Numbers up to the representation of rationals *)

#[global] Instance jsnum_equiv : Equiv jsnum := num_eq.

#[global] Instance num_eq_equivalence : Equivalence num_eq.
Proof.
  split.
  - intros [a| | | |]; simpl; done.
  - intros [a| | | |] [b| | | |]; simpl; done.
  - intros [a| | | |] [b| | | |] [c| | | |]; simpl; try done.
    intros H1 H2. exact (Qeq_trans _ _ _ H1 H2).
Qed.

#[global] Instance jsnum_equivalence : Equivalence (≡@{jsnum}).
Proof. exact num_eq_equivalence. Qed.

Lemma fin_equiv (a b : Q) : Fin a ≡ Fin b <-> a == b.
Proof. done. Qed.

Lemma equiv_fin_inv (x : jsnum) (q : Q) :
  x ≡ Fin q -> exists a, x = Fin a /\ a == q.
Proof. destruct x as [a| | | |]; simpl; try done. intros H. by exists a. Qed.

Lemma fin_equiv_toQ (x : jsnum) (q : Q) :
  x ≡ Fin q <-> is_fin x = true /\ toQ x == q.
Proof.
  destruct x as [a| | | |]; simpl; split; try done; try (by intros [? _]).
  by intros [_ H].
Qed.

#[global] Instance Fin_proper : Proper (Qeq ==> (≡)) Fin.
Proof. intros a b H. done. Qed.

Ltac num_destruct :=
  repeat match goal with
         | x : jsnum |- _ => destruct x
         end;
  unfold equiv, jsnum_equiv in *;
  cbv [add sub mul div Math_abs Math_round lt gt is_zero to_number sgn sgn_mul] in *;
  cbn [num_eq] in *; try done.

Ltac same_tests :=
  repeat match goal with
         | H : ?a == ?b |- context [Qeq_bool ?a ?c] =>
             rewrite (Qeqb_comp a b H c c (Qeq_refl c))
         | H : ?a == ?b |- context [?a ?= ?c] =>
             rewrite (Qcompare_comp a b H c c (Qeq_refl c))
         | H : ?a == ?b |- context [?c ?= ?a] =>
             rewrite (Qcompare_comp c c (Qeq_refl c) a b H)
         end.

#[global] Instance add_proper : Proper ((≡) ==> (≡) ==> (≡)) add.
Proof. intros x x' Hx y y' Hy. num_destruct. by rewrite Hx, Hy. Qed.

#[global] Instance sub_proper : Proper ((≡) ==> (≡) ==> (≡)) sub.
Proof. intros x x' Hx y y' Hy. num_destruct. by rewrite Hx, Hy. Qed.

#[global] Instance mul_proper : Proper ((≡) ==> (≡) ==> (≡)) mul.
Proof.
  intros x x' Hx y y' Hy. num_destruct; same_tests; try reflexivity.
  by rewrite Hx, Hy.
Qed.

#[global] Instance div_proper : Proper ((≡) ==> (≡) ==> (≡)) div.
Proof.
  intros x x' Hx y y' Hy. num_destruct; same_tests; try reflexivity.
  destruct (Qeq_bool _ 0); [reflexivity|]. simpl. by rewrite Hx, Hy.
Qed.

#[global] Instance Math_abs_proper : Proper ((≡) ==> (≡)) Math_abs.
Proof. intros x x' Hx. num_destruct. by rewrite Hx. Qed.

#[global] Instance lt_proper : Proper ((≡) ==> (≡) ==> eq) lt.
Proof.
  intros x x' Hx y y' Hy. num_destruct.
  by rewrite (Qcompare_comp _ _ Hx _ _ Hy).
Qed.

#[global] Instance gt_proper : Proper ((≡) ==> (≡) ==> eq) gt.
Proof. intros x x' Hx y y' Hy. unfold gt. by rewrite Hx, Hy. Qed.

#[global] Instance is_zero_proper : Proper ((≡) ==> eq) is_zero.
Proof. intros x x' Hx. num_destruct. by rewrite Hx. Qed.

#[global] Instance Math_round_proper : Proper ((≡) ==> (≡)) Math_round.
Proof. intros x x' Hx. num_destruct. by rewrite Hx. Qed.

(** ** The scenarios, evaluated *)

(** Scenario A: two units at 100, targeted at 100%. *)
Example scenarioA_run :
  let a := sample_asset "btc" 2 100 0 100 in
  let st := settle [a] "eur" in
  getAssetValue st a = Fin 200
  /\ totalValue st ≡ Fin 200
  /\ getCurrentPercent st a ≡ Fin 100
  /\ getRebalanceAction st a = None.
Proof. repeat split. Qed.

Example scenarioB_run :
  let st := settle scenarioB "eur" in
  totalValue st ≡ Fin 100
  /\ getCurrentPercent st coinB1 ≡ Fin 100
  /\ match getRebalanceAction st coinB1 with
     | Some r => action r = SELL /\ amount r ≡ Fin 50
     | None => False
     end
  /\ getCurrentPercent st coinB2 ≡ Fin 0
  /\ match getRebalanceAction st coinB2 with
     | Some r => action r = BUY /\ amount r ≡ Fin 50
     | None => False
     end.
Proof. repeat split. Qed.

(** Scenario C: no assets. *)
Example scenarioC_run :
  let st := settle [] "eur" in
  totalValue st = Fin 0
  /\ healthScore st = Normal (Fin 100)
  /\ totalTargetPercent st = Fin 0.
Proof. repeat split. Qed.

(** ** Valuation *)

Lemma or_zero_bounded (x : jsnum) :
  bounded x = true -> or x (Fin 0) ≡ Fin (toQ x).
Proof.
  destruct x as [a| | | |]; simpl; try done. intros _.
  unfold or; simpl. destruct (Qeq_bool a 0) eqn:E; simpl; [|done].
  apply Qeq_bool_eq in E. by rewrite E.
Qed.

Lemma falsy_toQ (x : jsnum) : bounded x = true -> truthy x = false -> toQ x == 0.
Proof.
  destruct x as [a| | | |]; simpl; try done. intros _ H.
  apply Qeq_bool_eq. by destruct (Qeq_bool a 0).
Qed.

Lemma well_formed_holdings (a : asset) :
  well_formed a = true -> holdings a = Fin (toQ (holdings a)).
Proof.
  unfold well_formed. rewrite !andb_true_iff. intros [[[[H _] _] _] _].
  by destruct (holdings a).
Qed.

Lemma well_formed_price (cur : string) (a : asset) :
  well_formed a = true -> bounded (price_in cur a) = true.
Proof.
  unfold well_formed, price_in. rewrite !andb_true_iff. intros [[[[_ _] _] He] Hu].
  by destruct (String.eqb cur "eur").
Qed.

Lemma well_formed_target (a : asset) :
  well_formed a = true -> bounded (targetPercent a) = true.
Proof. unfold well_formed. rewrite !andb_true_iff. by intros [[[[_ H] _] _] _]. Qed.

Lemma well_formed_buyPrice (a : asset) :
  well_formed a = true -> bounded (buyPrice a) = true.
Proof. unfold well_formed. rewrite !andb_true_iff. by intros [[[[_ _] H] _] _]. Qed.

Lemma holdings_times_price (cur : string) (a : asset) :
  well_formed a = true ->
  mul (holdings a) (or (price_in cur a) (Fin 0)) ≡ Fin (qvalue cur a).
Proof.
  intros Hwf. rewrite (or_zero_bounded _ (well_formed_price cur a Hwf)).
  by rewrite (well_formed_holdings a Hwf).
Qed.

Lemma getAssetValue_equiv (st : state) (a : asset) :
  well_formed a = true -> getAssetValue st a ≡ Fin (qvalue (currency st) a).
Proof. apply holdings_times_price. Qed.

Lemma holdings_times_buyPrice (a : asset) :
  well_formed a = true ->
  mul (holdings a) (or (buyPrice a) (Fin 0)) ≡ Fin (qcost a).
Proof.
  intros Hwf. rewrite (or_zero_bounded _ (well_formed_buyPrice a Hwf)).
  by rewrite (well_formed_holdings a Hwf).
Qed.

(** A [reduce] that adds one finite term per element is the sum of the
    terms. *)
Lemma reduce_add_sum {A : Type} (f : A -> jsnum) (g : A -> Q) (l : list A) :
  Forall (fun a => f a ≡ Fin (g a)) l ->
  forall (acc : jsnum) (q : Q),
    acc ≡ Fin q ->
    fold_left (fun sum a => add sum (f a)) l acc ≡ Fin (q + Qsum (map g l)).
Proof.
  induction 1 as [|a l Ha _ IH]; intros acc q Hacc; simpl.
  - rewrite Hacc. apply fin_equiv. lra.
  - rewrite (IH (add acc (f a)) (q + g a)).
    + apply fin_equiv. lra.
    + by rewrite Hacc, Ha.
Qed.

Lemma reduce_add_sum0 {A : Type} (f : A -> jsnum) (g : A -> Q) (l : list A) :
  Forall (fun a => f a ≡ Fin (g a)) l ->
  fold_left (fun sum a => add sum (f a)) l (Fin 0) ≡ Fin (Qsum (map g l)).
Proof.
  intros H. rewrite (reduce_add_sum f g l H (Fin 0) 0); [|done].
  apply fin_equiv. lra.
Qed.

Lemma calcTotal_equiv (l : list asset) (cur : string) :
  Forall (fun a => well_formed a = true) l ->
  calcTotal l cur ≡ Fin (qtotal cur l).
Proof.
  intros H. unfold calcTotal, qtotal.
  apply (reduce_add_sum0 (fun a => mul (holdings a) (or (price_in cur a) (Fin 0)))).
  eapply Forall_impl; [exact H|]. intros a Ha. by apply holdings_times_price.
Qed.

Lemma Qsum_map_ext {A : Type} (f g : A -> Q) (l : list A) :
  Forall (fun a => f a == g a) l -> Qsum (map f l) == Qsum (map g l).
Proof. induction 1 as [|a l Ha _ IH]; simpl; [done|]. by rewrite Ha, IH. Qed.

Lemma Qsum_map_scale {A : Type} (f : A -> Q) (c : Q) (l : list A) :
  Qsum (map (fun a => f a * c) l) == Qsum (map f l) * c.
Proof. induction l as [|a l IH]; simpl; [lra|]. rewrite IH. ring. Qed.

Lemma is_zero_total (l : list asset) (cur : string) :
  Forall (fun a => well_formed a = true) l ->
  is_zero (totalValue (settle l cur)) = Qeq_bool (qtotal cur l) 0.
Proof. intros H. simpl. by rewrite (calcTotal_equiv l cur H). Qed.

Lemma div_fin (a b : Q) : ~ b == 0 -> div (Fin a) (Fin b) = Fin (a / b).
Proof.
  intros H. unfold div; simpl. destruct (Qeq_bool b 0) eqn:E; [|done].
  by apply Qeq_bool_eq in E.
Qed.

Lemma getCurrentPercent_zero (l : list asset) (cur : string) (a : asset) :
  Forall (fun b => well_formed b = true) l ->
  qtotal cur l == 0 ->
  getCurrentPercent (settle l cur) a = Fin 0.
Proof.
  intros Hl H0. unfold getCurrentPercent. rewrite (is_zero_total l cur Hl).
  by rewrite (Qeq_eq_bool _ _ H0).
Qed.

Lemma percent_inline_equiv (l : list asset) (cur : string) (a : asset) :
  well_formed a = true ->
  Forall (fun b => well_formed b = true) l ->
  ~ qtotal cur l == 0 ->
  mul (div (getAssetValue (settle l cur) a) (totalValue (settle l cur))) (Fin 100)
  ≡ Fin (qpercent cur l a).
Proof.
  intros Ha Hl Hne. rewrite (getAssetValue_equiv _ a Ha). simpl totalValue.
  rewrite (calcTotal_equiv l cur Hl). simpl currency.
  by rewrite (div_fin _ _ Hne).
Qed.

Lemma getCurrentPercent_equiv (l : list asset) (cur : string) (a : asset) :
  well_formed a = true ->
  Forall (fun b => well_formed b = true) l ->
  ~ qtotal cur l == 0 ->
  getCurrentPercent (settle l cur) a ≡ Fin (qpercent cur l a).
Proof.
  intros Ha Hl Hne. unfold getCurrentPercent. rewrite (is_zero_total l cur Hl).
  destruct (Qeq_bool (qtotal cur l) 0) eqn:E.
  - by apply Qeq_bool_eq in E.
  - by apply percent_inline_equiv.
Qed.

(** C6. For a well-formed asset and list, the value of an asset is its
    holdings times its price in the selected currency; a price that is
    missing or zero makes the value 0; the total value is the sum of the
    asset values over the list; and an asset with holdings 0 has value 0
    and current percent 0 whatever its price. *)
Theorem getAssetValue_spec (l : list asset) (cur : string) (a : asset) :
  well_formed a = true ->
  Forall (fun b => well_formed b = true) l ->
  let st := settle l cur in
  getAssetValue st a ≡ Fin (toQ (holdings a) * toQ (price_in cur a))
  /\ (truthy (price_in cur a) = false -> getAssetValue st a ≡ Fin 0)
  /\ totalValue st ≡ Fin (Qsum (map (fun b => toQ (getAssetValue st b)) l))
  /\ (holdings a ≡ Fin 0 ->
      getAssetValue st a ≡ Fin 0 /\ getCurrentPercent st a ≡ Fin 0).
Proof.
  intros Ha Hl st.
  assert (Hv : getAssetValue st a ≡ Fin (qvalue cur a))
    by apply (getAssetValue_equiv st a Ha).
  unfold st in *.
  assert (Hh0 : holdings a ≡ Fin 0 -> qvalue cur a == 0).
  { intros Hh. apply fin_equiv_toQ in Hh as [_ Hh]. unfold qvalue. rewrite Hh. ring. }
  repeat split.
  - exact Hv.
  - intros Hf. rewrite Hv. apply fin_equiv. unfold qvalue, qprice.
    rewrite (falsy_toQ _ (well_formed_price cur a Ha) Hf). ring.
  - simpl totalValue. rewrite (calcTotal_equiv l cur Hl). apply fin_equiv.
    unfold qtotal. apply Qsum_map_ext.
    eapply Forall_impl; [exact Hl|]. intros b Hb. cbv beta.
    pose proof (getAssetValue_equiv (settle l cur) b Hb) as Hvb.
    apply fin_equiv_toQ in Hvb as [_ Hvb]. symmetry. exact Hvb.
  - rewrite Hv. apply fin_equiv. auto.
  - destruct (Qeq_dec (qtotal cur l) 0) as [H0|Hne].
    + by rewrite (getCurrentPercent_zero l cur a Hl H0).
    + rewrite (getCurrentPercent_equiv l cur a Ha Hl Hne). apply fin_equiv.
      unfold qpercent. rewrite (Hh0 H). field. exact Hne.
Qed.

Lemma settled_total (l : list asset) (cur : string) :
  Forall (fun a => well_formed a = true) l ->
  is_fin (totalValue (settle l cur)) = true
  /\ toQ (totalValue (settle l cur)) == qtotal cur l.
Proof. intros H. apply fin_equiv_toQ. simpl. by apply calcTotal_equiv. Qed.

(** Witness of C6 on scenario B: the coin with no holdings is worth 0
    and has current percent 0. *)
Lemma getAssetValue_spec_witness :
  well_formed coinB2 = true
  /\ Forall (fun b => well_formed b = true) scenarioB
  /\ getAssetValue (settle scenarioB "eur") coinB2 ≡ Fin 0
  /\ getCurrentPercent (settle scenarioB "eur") coinB2 ≡ Fin 0.
Proof.
  assert (H1 : well_formed coinB2 = true) by reflexivity.
  assert (H2 : Forall (fun b => well_formed b = true) scenarioB)
    by (repeat constructor).
  split; [exact H1|]. split; [exact H2|].
  destruct (getAssetValue_spec scenarioB "eur" coinB2 H1 H2) as (_ & _ & _ & H).
  apply H. reflexivity.
Defined.

(** C2. [getCurrentPercent] always returns a finite number: when the
    total value is 0 it returns 0 for every asset, and when the total
    value is positive it returns value / totalValue * 100; no division
    by zero is ever evaluated (it would show as an infinity or NaN). *)
Theorem getCurrentPercent_spec (l : list asset) (cur : string) (a : asset) :
  well_formed a = true ->
  Forall (fun b => well_formed b = true) l ->
  let st := settle l cur in
  is_fin (totalValue st) = true
  /\ (toQ (totalValue st) == 0 -> getCurrentPercent st a = Fin 0)
  /\ (0 < toQ (totalValue st) ->
      getCurrentPercent st a
      ≡ Fin (toQ (getAssetValue st a) / toQ (totalValue st) * 100))
  /\ is_fin (getCurrentPercent st a) = true.
Proof.
  intros Ha Hl st. unfold st.
  destruct (settled_total l cur Hl) as [Hfin HT].
  pose proof (getAssetValue_equiv (settle l cur) a Ha) as Hv.
  apply fin_equiv_toQ in Hv as [_ Hv]. simpl currency in Hv.
  repeat split.
  - exact Hfin.
  - intros H0. apply getCurrentPercent_zero; [done|]. by rewrite <- HT.
  - intros Hpos. rewrite (getCurrentPercent_equiv l cur a Ha Hl).
    + apply fin_equiv. unfold qpercent. by rewrite Hv, HT.
    + rewrite <- HT. lra.
  - destruct (Qeq_dec (qtotal cur l) 0) as [H0|Hne].
    + by rewrite (getCurrentPercent_zero l cur a Hl H0).
    + pose proof (getCurrentPercent_equiv l cur a Ha Hl Hne) as H.
      by apply fin_equiv_toQ in H as [H _].
Qed.

(** Witness of C2 on scenario B: the first coin holds all the value. *)
Lemma getCurrentPercent_spec_witness :
  well_formed coinB1 = true
  /\ Forall (fun b => well_formed b = true) scenarioB
  /\ getCurrentPercent (settle scenarioB "eur") coinB1 ≡ Fin 100.
Proof.
  assert (H1 : well_formed coinB1 = true) by reflexivity.
  assert (H2 : Forall (fun b => well_formed b = true) scenarioB)
    by (repeat constructor).
  split; [exact H1|]. split; [exact H2|].
  destruct (getCurrentPercent_spec scenarioB "eur" coinB1 H1 H2) as (_ & _ & H & _).
  rewrite H; reflexivity.
Defined.

(** C4. When the total value is positive the current percents of the
    assets of the list are finite and add up to exactly 100; when the
    total value is 0 every current percent is 0. *)
Theorem currentPercent_sum (l : list asset) (cur : string) :
  Forall (fun b => well_formed b = true) l ->
  let st := settle l cur in
  (0 < toQ (totalValue st) ->
   Forall (fun a => is_fin (getCurrentPercent st a) = true) l
   /\ Qsum (map (fun a => toQ (getCurrentPercent st a)) l) == 100)
  /\ (toQ (totalValue st) == 0 ->
      Forall (fun a => getCurrentPercent st a = Fin 0) l).
Proof.
  intros Hl st. unfold st.
  destruct (settled_total l cur Hl) as [_ HT].
  split.
  - intros Hpos. rewrite HT in Hpos.
    assert (Hne : ~ qtotal cur l == 0) by lra.
    assert (Hp : Forall (fun a => getCurrentPercent (settle l cur) a
                                  ≡ Fin (qvalue cur a * (100 / qtotal cur l))) l).
    { apply Forall_forall. intros a Hin.
      assert (Ha : well_formed a = true)
        by exact (proj1 (Forall_forall _ l) Hl a Hin).
      rewrite (getCurrentPercent_equiv l cur a Ha Hl Hne). apply fin_equiv.
      unfold qpercent. field. exact Hne. }
    split.
    + eapply Forall_impl; [exact Hp|]. intros a H.
      by apply fin_equiv_toQ in H as [H _].
    + rewrite (Qsum_map_ext _ (fun a => qvalue cur a * (100 / qtotal cur l))).
      * rewrite Qsum_map_scale. fold (qtotal cur l). field. exact Hne.
      * eapply Forall_impl; [exact Hp|]. intros a H.
        by apply fin_equiv_toQ in H as [_ H].
  - intros H0. rewrite HT in H0. apply Forall_forall. intros a _.
    by apply getCurrentPercent_zero.
Qed.

(** Witness of C4 on scenario B. *)
Lemma currentPercent_sum_witness :
  Forall (fun b => well_formed b = true) scenarioB
  /\ Qsum (map (fun a => toQ (getCurrentPercent (settle scenarioB "eur") a)) scenarioB)
     == 100.
Proof.
  assert (H : Forall (fun b => well_formed b = true) scenarioB)
    by (repeat constructor).
  split; [exact H|].
  destruct (currentPercent_sum scenarioB "eur" H) as [Hsum _].
  apply Hsum. reflexivity.
Defined.

(** ** Rebalance planner *)

Lemma lt_fin (a b : Q) : lt (Fin a) (Fin b) = true <-> a < b.
Proof.
  unfold lt; simpl. rewrite Qlt_alt. by destruct (a ?= b).
Qed.

Lemma lt_fin_false (a b : Q) : lt (Fin a) (Fin b) = false <-> ~ a < b.
Proof.
  rewrite <- lt_fin. by destruct (lt (Fin a) (Fin b)).
Qed.

(** The planner's difference is the target value minus the value. *)
Lemma difference_equiv (l : list asset) (cur : string) (a : asset) :
  well_formed a = true ->
  Forall (fun b => well_formed b = true) l ->
  let st := settle l cur in
  sub (mul (div (or (targetPercent a) (Fin 0)) (Fin 100)) (totalValue st))
      (getAssetValue st a)
  ≡ Fin (toQ (targetPercent a) / 100 * toQ (totalValue st) - toQ (getAssetValue st a)).
Proof.
  intros Ha Hl st. unfold st.
  destruct (settled_total l cur Hl) as [Hfin _].
  pose proof (getAssetValue_equiv (settle l cur) a Ha) as Hv.
  apply equiv_fin_inv in Hv as (v & -> & _).
  destruct (totalValue (settle l cur)) as [t| | | |]; try done.
  rewrite (or_zero_bounded _ (well_formed_target a Ha)).
  rewrite div_fin by done. done.
Qed.

(** Sizing the trade: [price > 0 ? Math.abs(difference / price) : 0]. *)
Lemma units_equiv (p : jsnum) (d dq : Q) :
  bounded p = true ->
  d == dq ->
  (0 < toQ p ->
   (if lt (Fin 0) p then Math_abs (div (Fin d) p) else Fin 0)
   ≡ Fin (Qabs (dq / toQ p)))
  /\ (toQ p == 0 ->
      (if lt (Fin 0) p then Math_abs (div (Fin d) p) else Fin 0) = Fin 0).
Proof.
  intros Hb Hd. destruct p as [q| | | |]; simpl in *; try done.
  destruct (lt (Fin 0) (Fin q)) eqn:Hq.
  - apply lt_fin in Hq. split.
    + intros _. rewrite div_fin by lra. simpl. by rewrite Hd.
    + intros Hz. lra.
  - apply lt_fin_false in Hq. split; [intros; contradiction|done].
Qed.

(** C1. The planner returns no action exactly when |difference| < 1,
    where difference = targetPercent / 100 * totalValue - value;
    otherwise the direction is BUY for a positive difference and SELL for
    a negative one, the amount is |difference|, and the units are
    |difference / price| for a positive price and 0 for a price of 0. *)
Theorem getRebalanceAction_spec (l : list asset) (cur : string) (a : asset) :
  well_formed a = true ->
  Forall (fun b => well_formed b = true) l ->
  let st := settle l cur in
  let targetValue := toQ (targetPercent a) / 100 * toQ (totalValue st) in
  let difference := targetValue - toQ (getAssetValue st a) in
  let price := toQ (price_in cur a) in
  (getRebalanceAction st a = None <-> Qabs difference < 1)
  /\ (forall r, getRebalanceAction st a = Some r ->
        (action r = BUY <-> 0 < difference)
        /\ (action r = SELL <-> difference < 0)
        /\ amount r ≡ Fin (Qabs difference)
        /\ (0 < price -> units r ≡ Fin (Qabs (difference / price)))
        /\ (price == 0 -> units r = Fin 0)).
Proof.
  intros Ha Hl st targetValue difference price.
  pose proof (difference_equiv l cur a Ha Hl) as Hd. cbv zeta in Hd.
  fold st in Hd. fold targetValue in Hd. fold difference in Hd.
  apply equiv_fin_inv in Hd as (d & Hd & Hdq).
  unfold getRebalanceAction. cbv zeta. rewrite Hd. simpl currency.
  change (Math_abs (Fin d)) with (Fin (Qabs d)).
  destruct (lt (Fin (Qabs d)) (Fin 1)) eqn:Habs.
  - apply lt_fin in Habs. rewrite Hdq in Habs. split; [done|].
    intros r Hr. discriminate Hr.
  - apply lt_fin_false in Habs. rewrite Hdq in Habs. split.
    { split; [intros Hr; discriminate Hr | intros Hlt; contradiction]. }
    intros r Hr. injection Hr as <-. cbn [action amount units].
    assert (Hnz : ~ difference == 0).
    { intros Hz. apply Habs. rewrite Hz. reflexivity. }
    unfold gt.
    destruct (lt (Fin 0) (Fin d)) eqn:Hsign.
    + apply lt_fin in Hsign. rewrite Hdq in Hsign.
      split; [done|]. split; [split; [done|lra]|].
      split; [by rewrite Hdq|]. apply units_equiv; [by apply well_formed_price|done].
    + apply lt_fin_false in Hsign. rewrite Hdq in Hsign.
      split; [split; [done|intros; contradiction]|].
      split; [split; [lra|done]|].
      split; [by rewrite Hdq|]. apply units_equiv; [by apply well_formed_price|done].
Qed.

(** Witness of C1 on scenario B: the first coin is over its target by 50. *)
Lemma getRebalanceAction_spec_witness :
  well_formed coinB1 = true
  /\ Forall (fun b => well_formed b = true) scenarioB
  /\ exists r, getRebalanceAction (settle scenarioB "eur") coinB1 = Some r
              /\ action r = SELL /\ amount r ≡ Fin 50.
Proof.
  assert (H1 : well_formed coinB1 = true) by reflexivity.
  assert (H2 : Forall (fun b => well_formed b = true) scenarioB)
    by (repeat constructor).
  split; [exact H1|]. split; [exact H2|].
  destruct (getRebalanceAction_spec scenarioB "eur" coinB1 H1 H2) as [_ H].
  eexists. split; [reflexivity|].
  destruct (H _ eq_refl) as (_ & Hsell & Hamount & _).
  split; [apply Hsell; reflexivity|].
  rewrite Hamount. reflexivity.
Defined.

(** ** Health scorer *)

Lemma Math_round_nearest (x : Q) :
  nearest_integer x (Qfloor (x + (1 # 2))).
Proof.
  unfold nearest_integer. apply Qabs_Qle_condition.
  pose proof (Qfloor_le (x + (1 # 2))) as Hlo.
  pose proof (Qlt_floor (x + (1 # 2))) as Hhi.
  rewrite inject_Z_plus in Hhi. change (inject_Z 1) with 1 in Hhi.
  split; lra.
Qed.

Lemma Math_max_zero (y : Q) : Math_max (Fin 0) (Fin y) ≡ Fin (Qmax 0 y).
Proof.
  unfold Math_max; simpl. destruct (lt (Fin 0) (Fin y)) eqn:E; apply fin_equiv.
  - apply lt_fin in E. symmetry. apply Q.max_r. lra.
  - apply lt_fin_false in E. symmetry. apply Q.max_l. lra.
Qed.

Lemma Array_reduce_normal {A B : Type} (f : B -> A -> completion B) (g : B -> A -> B)
    (l : list A) :
  (forall acc x, f acc x = Normal (g acc x)) ->
  forall acc, Array_reduce f l acc = Normal (fold_left g l acc).
Proof.
  intros Hf. induction l as [|x l IH]; intros acc; [done|].
  simpl. rewrite Hf. simpl. apply IH.
Qed.

(** Had [getAssetValue] been declared above the call, the reduce would
    give the sum of the distances between current and target percent. *)
Lemma totalDeviation_initialized (l : list asset) (cur : string) :
  Forall (fun b => well_formed b = true) l ->
  ~ qtotal cur l == 0 ->
  exists d,
    totalDeviation (Initialized (getAssetValue (settle l cur))) (settle l cur) = Normal d
    /\ d ≡ Fin (qdeviation cur l).
Proof.
  intros Hl Hne. unfold totalDeviation.
  rewrite (Array_reduce_normal _
             (fun sum a =>
                add sum (Math_abs (sub (mul (div (getAssetValue (settle l cur) a)
                                                 (totalValue (settle l cur))) (Fin 100))
                                       (or (targetPercent a) (Fin 0)))))) by done.
  eexists. split; [reflexivity|]. unfold qdeviation. cbn [assets settle].
  apply (reduce_add_sum0
           (fun a => Math_abs (sub (mul (div (getAssetValue (settle l cur) a)
                                             (totalValue (settle l cur))) (Fin 100))
                                   (or (targetPercent a) (Fin 0))))).
  apply Forall_forall. intros a Hin.
  assert (Ha : well_formed a = true) by exact (proj1 (Forall_forall _ l) Hl a Hin).
  rewrite (percent_inline_equiv l cur a Ha Hl Hne).
  by rewrite (or_zero_bounded _ (well_formed_target a Ha)).
Qed.

(** The body of [calculateHealthScore] computes the score the
    specification describes, whenever it can read [getAssetValue]. *)
Lemma calculateHealthScore_initialized (l : list asset) (cur : string) :
  Forall (fun b => well_formed b = true) l ->
  l <> [] -> ~ qtotal cur l == 0 ->
  exists n : Z,
    calculateHealthScore (Initialized (getAssetValue (settle l cur))) (settle l cur)
    = Normal (Fin (inject_Z n))
    /\ n = Qfloor (Qmax 0 (100 - qdeviation cur l / 2) + (1 # 2))
    /\ nearest_integer (Qmax 0 (100 - qdeviation cur l / 2)) n.
Proof.
  intros Hl Hnil Hne. unfold calculateHealthScore.
  rewrite (is_zero_total l cur Hl).
  destruct (Qeq_bool (qtotal cur l) 0) eqn:E; [by apply Qeq_bool_eq in E|].
  replace (length (assets (settle l cur)) =? 0)%nat with false
    by (simpl; by destruct l).
  simpl orb. cbv iota.
  destruct (totalDeviation_initialized l cur Hl Hne) as (dev & -> & HD).
  apply equiv_fin_inv in HD as (d & -> & Hd).
  cbn [and_then]. rewrite div_fin by done.
  change (sub (Fin 100) (Fin (d / 2))) with (Fin (100 - d / 2)).
  pose proof (Math_max_zero (100 - d / 2)) as Hm.
  apply equiv_fin_inv in Hm as (m & -> & Hm). rewrite Hd in Hm.
  exists (Qfloor (m + (1 # 2))). split; [done|].
  rewrite Hm. split; [done|]. apply Math_round_nearest.
Qed.

(** C3. The health score is 100 for an empty list or a total value of 0,
    as the specification says. For every other state the component does
    not compute max(0, 100 - totalDeviation / 2): the call on the line
    after the definition runs while [getAssetValue] is still
    uninitialised, so the first step of the reduce throws a
    ReferenceError. On scenario B, where the formula gives 50, the render
    throws. *)
Theorem healthScore_throws (st : state) :
  (assets st = [] \/ is_zero (totalValue st) = true ->
   healthScore st = Normal (Fin 100))
  /\ (assets st <> [] -> is_zero (totalValue st) = false ->
      healthScore st = Throw (ReferenceError "getAssetValue"))
  /\ healthScore (settle scenarioB "eur") = Throw (ReferenceError "getAssetValue")
  /\ calculateHealthScore (Initialized (getAssetValue (settle scenarioB "eur")))
                          (settle scenarioB "eur")
     = Normal (Fin 50).
Proof.
  unfold healthScore, calculateHealthScore. split; [|split; [|split]].
  - intros [-> | ->]; [done|]. by rewrite orb_true_r.
  - intros Hnil ->. destruct (assets st) as [|a l] eqn:E; [done|].
    unfold totalDeviation. rewrite E. reflexivity.
  - reflexivity.
  - reflexivity.
Qed.

(** ** Profit and loss *)

Lemma totalCostBasis_equiv (l : list asset) (cur : string) :
  Forall (fun b => well_formed b = true) l ->
  totalCostBasis (settle l cur) ≡ Fin (Qsum (map qcost l)).
Proof.
  intros Hl. unfold totalCostBasis.
  apply (reduce_add_sum0 (fun a => mul (holdings a) (or (buyPrice a) (Fin 0)))).
  eapply Forall_impl; [exact Hl|]. intros a Ha. by apply holdings_times_buyPrice.
Qed.

Lemma totalPnL_equiv (l : list asset) (cur : string) :
  Forall (fun b => well_formed b = true) l ->
  totalPnL (settle l cur) ≡ Fin (Qsum (map (fun a => qvalue cur a - qcost a) l)).
Proof.
  intros Hl. unfold totalPnL. cbv zeta. simpl currency. simpl assets.
  apply (reduce_add_sum0
           (fun a => sub (mul (holdings a) (or (price_in cur a) (Fin 0)))
                         (mul (holdings a) (or (buyPrice a) (Fin 0))))).
  eapply Forall_impl; [exact Hl|]. intros a Ha. cbv beta.
  by rewrite (holdings_times_price cur a Ha), (holdings_times_buyPrice a Ha).
Qed.

(** C7. The total profit is the sum over the assets of value minus
    holdings times buy price, the total cost basis is the sum of holdings
    times buy price, and the profit percent is profit / cost * 100 for a
    positive cost basis and 0 otherwise; five units bought at 80 and
    priced at 100 give a profit of 100 and a profit percent of 25. *)
Theorem pnlPercent_spec (l : list asset) (cur : string) :
  Forall (fun b => well_formed b = true) l ->
  let st := settle l cur in
  let pnl :=
    Qsum (map (fun a => toQ (getAssetValue st a) - toQ (holdings a) * toQ (buyPrice a)) l) in
  let cost := Qsum (map (fun a => toQ (holdings a) * toQ (buyPrice a)) l) in
  totalPnL st ≡ Fin pnl
  /\ totalCostBasis st ≡ Fin cost
  /\ (0 < cost -> pnlPercent st ≡ Fin (pnl / cost * 100))
  /\ (~ 0 < cost -> pnlPercent st = Fin 0)
  /\ totalPnL (settle scenarioD "eur") ≡ Fin 100
  /\ pnlPercent (settle scenarioD "eur") ≡ Fin 25.
Proof.
  intros Hl st pnl cost. subst st.
  assert (Hpnl : Qsum (map (fun a => qvalue cur a - qcost a) l) == pnl).
  { unfold pnl. apply Qsum_map_ext. apply Forall_forall. intros a Hin. cbv beta.
    assert (Ha : well_formed a = true)
      by exact (proj1 (Forall_forall _ l) Hl a Hin).
    pose proof (getAssetValue_equiv (settle l cur) a Ha) as Hv.
    apply fin_equiv_toQ in Hv as [_ Hv]. rewrite Hv. reflexivity. }
  pose proof (totalPnL_equiv l cur Hl) as HP. rewrite Hpnl in HP.
  pose proof (totalCostBasis_equiv l cur Hl) as HC.
  change (Qsum (map qcost l)) with cost in HC.
  split; [exact HP|]. split; [exact HC|].
  unfold pnlPercent, gt.
  apply equiv_fin_inv in HP as (p & -> & Hp).
  apply equiv_fin_inv in HC as (c & -> & Hc).
  split; [|split; [|split; reflexivity]].
  - intros Hpos. rewrite <- Hc in Hpos.
    rewrite (proj2 (lt_fin 0 c) Hpos). rewrite div_fin by lra.
    apply fin_equiv. by rewrite Hp, Hc.
  - intros Hnpos. rewrite <- Hc in Hnpos.
    by rewrite (proj2 (lt_fin_false 0 c) Hnpos).
Qed.

(** Witness of C7 on scenario B, where nothing was paid: the cost basis
    is 0 and so is the profit percent. *)
Lemma pnlPercent_spec_witness :
  Forall (fun b => well_formed b = true) scenarioB
  /\ totalPnL (settle scenarioB "eur") ≡ Fin 100
  /\ pnlPercent (settle scenarioB "eur") = Fin 0.
Proof.
  assert (H : Forall (fun b => well_formed b = true) scenarioB)
    by (repeat constructor).
  split; [exact H|].
  destruct (pnlPercent_spec scenarioB "eur" H) as (Hp & _ & _ & H0 & _).
  split; [rewrite Hp; reflexivity|].
  apply H0. by vm_compute.
Defined.

(** ** Listing order *)

Section SortFacts.
Context {A : Type} (compare : A -> A -> jsnum) (key : A -> Q) (P : A -> Prop).

(** The comparator orders the elements satisfying [P] by decreasing key. *)
Hypothesis compare_key :
  forall x y, P x -> P y -> (gt (compare x y) (Fin 0) = true <-> key x < key y).

Let desc (x y : A) : Prop := key y <= key x.
Let has_key (v : Q) (x : A) : bool := Qeq_bool (key x) v.

Lemma sort_insert_perm (x : A) (l : list A) :
  Permutation (sort_insert compare x l) (x :: l).
Proof.
  induction l as [|y l IH]; simpl; [done|].
  destruct (gt (compare x y) (Fin 0)); [|done].
  rewrite IH. apply perm_swap.
Qed.

Lemma Array_sort_perm (l : list A) : Permutation (Array_sort compare l) l.
Proof.
  induction l as [|x l IH]; simpl; [done|].
  rewrite sort_insert_perm. by constructor.
Qed.

Lemma sort_insert_sorted (x : A) (l : list A) :
  P x -> Forall P l ->
  StronglySorted desc l -> StronglySorted desc (sort_insert compare x l).
Proof.
  intros Hx Hl Hs. induction Hs as [|y l Hs IH Hy]; simpl.
  - repeat constructor.
  - apply Forall_cons in Hl as [Py Hl].
    destruct (gt (compare x y) (Fin 0)) eqn:E.
    + apply (compare_key x y Hx Py) in E.
      constructor; [by apply IH|].
      rewrite sort_insert_perm. constructor; [|done].
      unfold desc. lra.
    + assert (Hxy : key y <= key x).
      { destruct (Qlt_le_dec (key x) (key y)) as [Hlt|Hle]; [|done].
        apply (compare_key x y Hx Py) in Hlt. congruence. }
      constructor; [by constructor|].
      constructor; [done|].
      eapply Forall_impl; [exact Hy|]. unfold desc. intros z Hz. lra.
Qed.

Lemma Array_sort_sorted (l : list A) :
  Forall P l -> StronglySorted desc (Array_sort compare l).
Proof.
  induction 1 as [|x l Hx Hl IH]; simpl; [constructor|].
  apply sort_insert_sorted; [done| |done].
  by rewrite Array_sort_perm.
Qed.

Lemma sort_insert_stable (v : Q) (x : A) (l : list A) :
  P x -> Forall P l ->
  List.filter (has_key v) (sort_insert compare x l)
  = List.filter (has_key v) (x :: l).
Proof.
  intros Hx Hl. induction Hl as [|y l Py Hl IH]; [done|]. simpl.
  destruct (gt (compare x y) (Fin 0)) eqn:E; [|done].
  apply (compare_key x y Hx Py) in E. simpl. rewrite IH. simpl.
  unfold has_key.
  destruct (Qeq_bool (key x) v) eqn:Ex; [|done].
  destruct (Qeq_bool (key y) v) eqn:Ey; [|done].
  apply Qeq_bool_eq in Ex, Ey. lra.
Qed.

Lemma Array_sort_stable (v : Q) (l : list A) :
  Forall P l ->
  List.filter (has_key v) (Array_sort compare l) = List.filter (has_key v) l.
Proof.
  induction 1 as [|x l Hx Hl IH]; [done|]. simpl Array_sort.
  rewrite sort_insert_stable; [|done|by rewrite Array_sort_perm].
  simpl. by rewrite IH.
Qed.
End SortFacts.

Lemma byValueDesc_key (cur : string) (a b : asset) :
  well_formed a = true -> well_formed b = true ->
  gt (byValueDesc cur a b) (Fin 0) = true
  <-> toQ (getAssetValue (settle [] cur) a) < toQ (getAssetValue (settle [] cur) b).
Proof.
  intros Ha Hb. unfold byValueDesc, getAssetValue. cbv zeta. simpl currency.
  pose proof (holdings_times_price cur a Ha) as Hva.
  pose proof (holdings_times_price cur b Hb) as Hvb.
  apply equiv_fin_inv in Hva as (va & -> & _).
  apply equiv_fin_inv in Hvb as (vb & -> & _).
  unfold gt. change (sub (Fin vb) (Fin va)) with (Fin (vb - va)).
  rewrite lt_fin. simpl toQ. split; intros; lra.
Qed.

(** C8. The listing is a permutation of the asset list, in decreasing
    order of value, and the assets of any one value appear in it in the
    order they have in the asset list. *)
Theorem sortedAssets_spec (l : list asset) (cur : string) :
  Forall (fun b => well_formed b = true) l ->
  let st := settle l cur in
  let value := fun a => toQ (getAssetValue st a) in
  Permutation (sortedAssets st) l
  /\ StronglySorted (fun a b => value b <= value a) (sortedAssets st)
  /\ forall v : Q,
      List.filter (fun a => Qeq_bool (value a) v) (sortedAssets st)
      = List.filter (fun a => Qeq_bool (value a) v) l.
Proof.
  intros Hl st value. unfold sortedAssets. simpl currency. simpl assets.
  split; [apply Array_sort_perm|]. split.
  - apply (Array_sort_sorted (byValueDesc cur) value (fun a => well_formed a = true));
      [|exact Hl].
    intros x y. apply byValueDesc_key.
  - intros v.
    apply (Array_sort_stable (byValueDesc cur) value (fun a => well_formed a = true));
      [|exact Hl].
    intros x y. apply byValueDesc_key.
Qed.

(** Witness of C8: bitcoin and cardano are both worth 100 and keep their
    order in the listing. *)
Lemma sortedAssets_spec_witness :
  Forall (fun b => well_formed b = true) scenarioTie
  /\ List.filter
       (fun a => Qeq_bool (toQ (getAssetValue (settle scenarioTie "eur") a)) 100)
       (sortedAssets (settle scenarioTie "eur"))
     = [coinB1; coinT].
Proof.
  assert (H : Forall (fun b => well_formed b = true) scenarioTie)
    by (repeat constructor).
  split; [exact H|].
  destruct (sortedAssets_spec scenarioTie "eur" H) as (_ & _ & Hstable).
  rewrite Hstable. reflexivity.
Defined.

(** ** Price refresh *)

Lemma lookup_map {A B : Type} (f : A -> B) (l : list A) (i : nat) :
  map f l !! i = option_map f (l !! i).
Proof.
  revert i. induction l as [|x l IH]; intros [|i]; simpl; try done.
Qed.

Lemma or_falsy (x y : jsnum) : truthy x = false -> or x y = y.
Proof. unfold or. by intros ->. Qed.

Lemma or_absent (x : jsnum) : or (or Undef x) (Fin 0) = or x (Fin 0).
Proof. done. Qed.

Lemma or_zero_number (x : jsnum) : is_number x = true -> or x (Fin 0) ≡ x.
Proof.
  destruct x as [a| | | |]; try done. intros _. unfold or; simpl.
  destruct (Qeq_bool a 0) eqn:E; simpl; [|done].
  apply Qeq_bool_eq in E. by symmetry.
Qed.

Lemma or_zero_truthy (x : jsnum) : truthy x = true -> or x (Fin 0) = x.
Proof. unfold or. by intros ->. Qed.

(** C9. A completed refresh keeps the list position by position: every
    asset keeps its id, symbol, name, icon, holdings, target, buy price
    and category, so only the two prices and the 24h change are written;
    an asset the response has no entry for keeps both prices. A failed
    request changes nothing. *)
Theorem fetchPrices_frame (st : state) (data : gmap string quote) :
  let st' := fetchPrices st (Some data) in
  fetchPrices st None = st
  /\ currency st' = currency st
  /\ length (assets st') = length (assets st)
  /\ map id (assets st') = map id (assets st)
  /\ forall (i : nat) (a : asset),
      assets st !! i = Some a ->
      exists b,
        assets st' !! i = Some b
        /\ id b = id a /\ symbol b = symbol a /\ name b = name a
        /\ thumb b = thumb a /\ holdings b = holdings a
        /\ targetPercent b = targetPercent a /\ buyPrice b = buyPrice a
        /\ category b = category a
        /\ (data !! id a = None ->
            (is_number (priceEur a) = true -> priceEur b ≡ priceEur a)
            /\ (is_number (priceUsd a) = true -> priceUsd b ≡ priceUsd a)
            /\ (truthy (priceEur a) = true -> priceEur b = priceEur a)
            /\ (truthy (priceUsd a) = true -> priceUsd b = priceUsd a)).
Proof.
  intros st'. unfold st', fetchPrices, setAssets, mergePrices. simpl assets. simpl currency.
  split; [done|]. split; [done|]. split; [apply length_map|].
  split.
  { rewrite map_map. simpl. done. }
  intros i a Hi. rewrite lookup_map, Hi. simpl.
  eexists. split; [reflexivity|]. simpl.
  repeat (split; [reflexivity|]).
  intros Habs. unfold quote_get. rewrite Habs. rewrite !or_absent.
  repeat split.
  - apply or_zero_number.
  - apply or_zero_number.
  - apply or_zero_truthy.
  - apply or_zero_truthy.
Qed.

(** An asset the response has no entry for has its 24h change reset. *)
Lemma mergePrices_change24h_absent (data : gmap string quote) (prev : list asset)
    (i : nat) (a : asset) :
  prev !! i = Some a -> data !! id a = None ->
  exists b, mergePrices data prev !! i = Some b /\ change24h b = Fin 0.
Proof.
  intros Hi Habs. unfold mergePrices. rewrite lookup_map, Hi. simpl.
  eexists. split; [reflexivity|]. simpl. unfold quote_get. by rewrite Habs.
Qed.

(** C10. A quote of exactly 0 is treated like no quote at all: the
    merged price is what it would be had the response no entry for the
    asset, so a stored non-zero price is kept instead of becoming 0. *)
Theorem mergePrices_zero_quote (data : gmap string quote) (prev : list asset)
    (i : nat) (a : asset) (q : quote) :
  prev !! i = Some a ->
  data !! id a = Some q ->
  eur q ≡ Fin 0 ->
  exists b b',
    mergePrices data prev !! i = Some b
    /\ mergePrices (delete (id a) data) prev !! i = Some b'
    /\ priceEur b = priceEur b'
    /\ (truthy (priceEur a) = true -> priceEur b = priceEur a).
Proof.
  intros Hi Hq H0. unfold mergePrices. rewrite !lookup_map, Hi. simpl.
  eexists. eexists. split; [reflexivity|]. split; [reflexivity|]. simpl.
  unfold quote_get. rewrite Hq, lookup_delete_eq.
  assert (Hf : truthy (eur q) = false).
  { destruct (eur q) as [e| | | |]; try done. simpl.
    apply fin_equiv in H0. by rewrite (Qeq_eq_bool _ _ H0). }
  rewrite !(or_falsy (eur q) _ Hf), or_absent. split; [done|].
  apply or_zero_truthy.
Qed.

(** Witness of C10: bitcoin is stored at 100 euro, the response quotes it
    at 0, and the stored price stays. *)
Lemma mergePrices_zero_quote_witness :
  scenarioB !! 0%nat = Some coinB1
  /\ zero_quote !! id coinB1 = Some (mkQuote (Fin 0) (Fin 108) (Fin 2))
  /\ exists b, mergePrices zero_quote scenarioB !! 0%nat = Some b
              /\ priceEur b = Fin 100 /\ priceUsd b = Fin 108.
Proof.
  assert (H1 : scenarioB !! 0%nat = Some coinB1) by reflexivity.
  assert (H2 : zero_quote !! id coinB1 = Some (mkQuote (Fin 0) (Fin 108) (Fin 2)))
    by reflexivity.
  split; [exact H1|]. split; [exact H2|].
  destruct (mergePrices_zero_quote zero_quote scenarioB 0 coinB1 _ H1 H2)
    as (b & b' & Hb & _ & _ & Hkeep); [done|].
  exists b. split; [exact Hb|]. split; [by apply Hkeep|].
  vm_compute in Hb. injection Hb as <-. reflexivity.
Defined.

(** ** Writers of the asset list *)

Lemma or_zero_is_number (x : jsnum) : is_number (or x (Fin 0)) = true.
Proof. unfold or. destruct x as [a| | | |]; simpl; try done. by destruct (Qeq_bool a 0). Qed.

Lemma or_zero_nonneg (x : jsnum) :
  nonneg_or_missing x = true -> nonneg (or x (Fin 0)) = true.
Proof.
  unfold or. destruct x as [a| | | |]; simpl; try done.
  intros H. by destruct (Qeq_bool a 0).
Qed.

Lemma or_or_zero_nonneg (x old : jsnum) :
  nonneg_or_missing x = true -> nonneg old = true ->
  nonneg (or (or x old) (Fin 0)) = true.
Proof.
  intros Hx Hold. unfold or at 2. destruct (truthy x) eqn:E.
  - by apply or_zero_nonneg.
  - apply or_zero_nonneg. by destruct old.
Qed.

Lemma nonneg_is_number (x : jsnum) : nonneg x = true -> is_number x = true.
Proof. by destruct x. Qed.

Lemma percent_ok_is_number (x : jsnum) : percent_ok x = true -> is_number x = true.
Proof. by destruct x. Qed.

Lemma Qle_bool_lt_true (a b : Q) : lt (Fin a) (Fin b) = true -> Qle_bool a b = true.
Proof. intros H. apply lt_fin in H. apply Qle_bool_iff. lra. Qed.

(** The clamp of [updateTarget] lands in [0, 100] whatever was typed. *)
Lemma clamp_percent_ok (x : jsnum) :
  percent_ok (Math_min (Fin 100) (Math_max (Fin 0) (or x (Fin 0)))) = true.
Proof.
  unfold or. destruct x as [a| | | |]; simpl; try done.
  destruct (Qeq_bool a 0); simpl; [done|].
  unfold Math_max; simpl. destruct (lt (Fin 0) (Fin a)) eqn:E0; [|done].
  unfold Math_min; simpl. destruct (lt (Fin a) (Fin 100)) eqn:E1; simpl; [|done].
  by rewrite (Qle_bool_lt_true _ _ E0), (Qle_bool_lt_true _ _ E1).
Qed.

Lemma Forall_map_if {A : Type} (P : A -> Prop) (c : A -> bool) (f : A -> A) (l : list A) :
  Forall P l -> (forall a, P a -> c a = true -> P (f a)) ->
  Forall P (map (fun a => if c a then f a else a) l).
Proof.
  intros Hl Hf. induction Hl as [|a l Ha _ IH]; simpl; constructor; [|done].
  destruct (c a) eqn:E; [by apply Hf|done].
Qed.

Lemma asset_invariant_numeric (a : asset) : asset_invariant a = true -> numeric a = true.
Proof.
  unfold asset_invariant, numeric. rewrite !andb_true_iff.
  intros [[[[H1 H2] H3] H4] H5].
  by rewrite (nonneg_is_number _ H1), (nonneg_is_number _ H2), (nonneg_is_number _ H3),
    (nonneg_is_number _ H4), (percent_ok_is_number _ H5).
Qed.

Lemma set_field_numeric (a : asset) (f : field) (v : option string) :
  numeric a = true -> numeric (set_field a f v) = true.
Proof.
  unfold numeric. rewrite !andb_true_iff. intros [[[[H1 H2] H3] H4] H5].
  destruct f; simpl; rewrite ?or_zero_is_number; by rewrite ?H1, ?H2, ?H3, ?H4, ?H5.
Qed.

Lemma set_field_invariant (a : asset) (f : field) (v : option string) :
  f <> targetPercent_f ->
  f = category_f \/ nonneg_or_missing (parseFloat_value v) = true ->
  asset_invariant a = true -> asset_invariant (set_field a f v) = true.
Proof.
  intros Hf Hv. unfold asset_invariant. rewrite !andb_true_iff.
  intros [[[[H1 H2] H3] H4] H5].
  destruct f; simpl; try done; destruct Hv as [?|Hv]; try done;
    rewrite (or_zero_nonneg _ Hv); by rewrite ?H1, ?H2, ?H3, ?H4, ?H5.
Qed.

(** C5, as stated, fails: [updateAsset] stores a negative input as it
    is. Typing -5 into the holdings of bitcoin leaves holdings at -5. *)
Lemma updateAsset_stores_negative : ~ every_write_keeps_invariants.
Proof.
  intros H.
  destruct (H (settle scenarioB "eur")) as (_ & _ & Hu & _).
  - repeat constructor.
  - specialize (Hu "btc" holdings_f (Some "-5")).
    apply Forall_cons in Hu as [Hu _]. vm_compute in Hu. discriminate Hu.
Qed.

Example updateAsset_negative_holdings :
  map holdings (assets (updateAsset (settle scenarioB "eur") "btc" holdings_f (Some "-5")))
  = [Fin (-5); Fin 0].
Proof. reflexivity. Qed.

Example updateHoldings_negative_holdings :
  map holdings (assets (updateHoldings (settle scenarioB "eur") "btc" "-5"))
  = [Fin (-5); Fin 0].
Proof. reflexivity. Qed.

(** [updateAsset] does not clamp a target either, where [updateTarget]
    does. *)
Example updateAsset_target_unclamped :
  map targetPercent
      (assets (updateAsset (settle scenarioB "eur") "btc" targetPercent_f (Some "150")))
  = [Fin 150; Fin 50]
  /\ map targetPercent (assets (updateTarget (settle scenarioB "eur") "btc" "150"))
     = [Fin 100; Fin 50].
Proof. split; reflexivity. Qed.

(** C5, amended. From a state that satisfies the invariants: [addAsset],
    [removeAsset], [updateTarget] and [updateAsset] on the category keep
    them; [updateAsset] on holdings or buy price and [updateHoldings]
    keep them when the input parses to a non-negative real or does not
    parse (it is then stored as 0); the price merges keep them when the
    quotes are non-negative or missing; and no [updateAsset] or
    [updateHoldings] leaves NaN or a missing value in a numeric field. *)
Theorem writes_keep_invariants (st : state) :
  invariants st ->
  (forall c, invariants (addAsset st c))
  /\ (forall i, invariants (removeAsset st i))
  /\ (forall i v, invariants (updateTarget st i v))
  /\ (forall i v, invariants (updateAsset st i category_f v))
  /\ (forall i f v,
        f = holdings_f \/ f = buyPrice_f ->
        nonneg_or_missing (parseFloat_value v) = true ->
        invariants (updateAsset st i f v))
  /\ (forall i v,
        nonneg_or_missing (parseFloat v) = true ->
        invariants (updateHoldings st i v))
  /\ (forall i f v,
        Forall (fun a => numeric a = true) (assets (updateAsset st i f v)))
  /\ (forall i v,
        Forall (fun a => numeric a = true) (assets (updateHoldings st i v)))
  /\ (forall data,
        quotes_nonneg data ->
        invariants (fetchPrices st (Some data))
        /\ forall c, invariants (setAssets st (mergeNewPrice data c (assets st)))).
Proof.
  unfold invariants. intros Hst.
  assert (Hnum : Forall (fun a => numeric a = true) (assets st)).
  { eapply Forall_impl; [exact Hst|]. apply asset_invariant_numeric. }
  repeat split.
  - intros c. unfold addAsset.
    destruct (find _ (assets st)); [done|]. simpl.
    apply Forall_app. split; [done|]. by repeat constructor.
  - intros i. simpl. apply Forall_forall. intros a Ha.
    apply list_elem_of_In, filter_In in Ha as [Ha _].
    apply list_elem_of_In in Ha. exact (proj1 (Forall_forall _ _) Hst a Ha).
  - intros i v. simpl.
    apply (Forall_map_if (fun a => asset_invariant a = true)); [done|].
    intros a Ha _. revert Ha. unfold asset_invariant. simpl.
    rewrite !andb_true_iff. intros [[[[H1 H2] H3] H4] _].
    by rewrite clamp_percent_ok, H1, H2, H3, H4.
  - intros i v. unfold updateAsset, setAssets. cbn [assets].
    apply (Forall_map_if (fun a => asset_invariant a = true)); [done|].
    intros a Ha _. apply set_field_invariant; [done|by left|done].
  - intros i f v Hf Hv. unfold updateAsset, setAssets. cbn [assets].
    apply (Forall_map_if (fun a => asset_invariant a = true)); [done|].
    intros a Ha _. apply set_field_invariant; [|by right|done].
    by destruct Hf as [-> | ->].
  - intros i v Hv. simpl.
    apply (Forall_map_if (fun a => asset_invariant a = true)); [done|].
    intros a Ha _. revert Ha. unfold asset_invariant. simpl.
    rewrite !andb_true_iff. intros [[[[_ H2] H3] H4] H5].
    by rewrite (or_zero_nonneg _ Hv), H2, H3, H4, H5.
  - intros i f v. unfold updateAsset, setAssets. cbn [assets].
    apply (Forall_map_if (fun a => numeric a = true)); [done|].
    intros a Ha _. by apply set_field_numeric.
  - intros i v. simpl.
    apply (Forall_map_if (fun a => numeric a = true)); [done|].
    intros a Ha _. revert Ha. unfold numeric. simpl.
    rewrite !andb_true_iff. intros [[[[_ H2] H3] H4] H5].
    by rewrite or_zero_is_number, H2, H3, H4, H5.
  - simpl. unfold mergePrices. apply Forall_forall. intros b Hb.
    apply list_elem_of_In, in_map_iff in Hb as (a & <- & Ha).
    apply list_elem_of_In in Ha.
    pose proof (proj1 (Forall_forall _ _) Hst a Ha) as Hinv.
    revert Hinv. unfold asset_invariant. simpl.
    rewrite !andb_true_iff. intros [[[[H1 H2] H3] H4] H5].
    assert (Hq : nonneg_or_missing (quote_get data (id a) eur) = true
                 /\ nonneg_or_missing (quote_get data (id a) usd) = true).
    { unfold quote_get. destruct (data !! id a) as [q|] eqn:E; [|done].
      exact (H (id a) q E). }
    destruct Hq as [He Hu].
    by rewrite (or_or_zero_nonneg _ _ He H3), (or_or_zero_nonneg _ _ Hu H4), H1, H2, H5.
  - intros c. simpl.
    apply (Forall_map_if (fun a => asset_invariant a = true)); [done|].
    intros a Ha _. revert Ha. unfold asset_invariant. simpl.
    rewrite !andb_true_iff. intros [[[[H1 H2] _] _] H5].
    assert (Hq : nonneg_or_missing (quote_get data c eur) = true
                 /\ nonneg_or_missing (quote_get data c usd) = true).
    { unfold quote_get. destruct (data !! c) as [q|] eqn:E; [|done].
      exact (H c q E). }
    destruct Hq as [He Hu].
    by rewrite (or_zero_nonneg _ He), (or_zero_nonneg _ Hu), H1, H2, H5.
Qed.

(** Witness of the amended C5 on scenario B: a target typed as 150 is
    clamped by [updateTarget], and holdings typed as 2.5 are stored. *)
Lemma writes_keep_invariants_witness :
  invariants (settle scenarioB "eur")
  /\ invariants (updateTarget (settle scenarioB "eur") "btc" "150")
  /\ invariants (updateAsset (settle scenarioB "eur") "eth" holdings_f (Some "2.5")).
Proof.
  assert (H : invariants (settle scenarioB "eur")) by (repeat constructor).
  split; [exact H|].
  destruct (writes_keep_invariants (settle scenarioB "eur") H)
    as (_ & _ & Ht & _ & Hu & _).
  split; [apply Ht|].
  apply Hu; [by left|reflexivity].
Defined.

(** Witness of C9: a response that only knows bitcoin leaves ether as it
    was, prices included. *)
Lemma fetchPrices_frame_witness :
  exists b,
    assets (fetchPrices (settle scenarioB "eur") (Some zero_quote)) !! 1%nat = Some b
    /\ id b = "eth" /\ holdings b = Fin 0 /\ priceEur b = Fin 50 /\ priceUsd b = Fin 50.
Proof.
  destruct (fetchPrices_frame (settle scenarioB "eur") zero_quote)
    as (_ & _ & _ & _ & H).
  destruct (H 1%nat coinB2 eq_refl)
    as (b & Hb & Hid & _ & _ & _ & Hh & _ & _ & _ & Hp).
  destruct (Hp eq_refl) as (_ & _ & He & Hu).
  exists b. split; [exact Hb|]. split; [by rewrite Hid|]. split; [by rewrite Hh|].
  split; [by rewrite He|by rewrite Hu].
Defined.

(** * Further properties of the engine and of the writers *)

(** ** Rebalance actions *)

Lemma rebalance_cases (l : list asset) (cur : string) (a : asset) :
  well_formed a = true ->
  Forall (fun b => well_formed b = true) l ->
  exists d,
    d == qdifference cur l a
    /\ getRebalanceAction (settle l cur) a
       = if lt (Fin (Qabs d)) (Fin 1) then None
         else Some {| action := if lt (Fin 0) (Fin d) then BUY else SELL;
                      amount := Fin (Qabs d);
                      units := if lt (Fin 0) (price_in cur a)
                               then Math_abs (div (Fin d) (price_in cur a))
                               else Fin 0 |}.
Proof.
  intros Ha Hl.
  pose proof (difference_equiv l cur a Ha Hl) as Hd. cbv zeta in Hd.
  apply equiv_fin_inv in Hd as (d & Hd & Hdq).
  exists d. split.
  - rewrite Hdq. unfold qdifference.
    destruct (settled_total l cur Hl) as [_ HT]. rewrite HT.
    pose proof (getAssetValue_equiv (settle l cur) a Ha) as Hv.
    apply fin_equiv_toQ in Hv as [_ Hv]. rewrite Hv. reflexivity.
  - unfold getRebalanceAction. cbv zeta. rewrite Hd. reflexivity.
Qed.

Lemma qdifference_percent (l : list asset) (cur : string) (a : asset) :
  ~ qtotal cur l == 0 ->
  qdifference cur l a
  == (toQ (targetPercent a) - qpercent cur l a) * (qtotal cur l / 100).
Proof. intros Hne. unfold qdifference, qpercent. field. exact Hne. Qed.

(** X3. With a positive total, the planner says BUY only for an asset
    whose current percent is below its target percent and SELL only for
    one above it, and it reports no action for an asset exactly at its
    target. *)
Theorem rebalance_direction (l : list asset) (cur : string) (a : asset) :
  well_formed a = true ->
  Forall (fun b => well_formed b = true) l ->
  0 < toQ (totalValue (settle l cur)) ->
  let st := settle l cur in
  (forall r, getRebalanceAction st a = Some r ->
     (action r = BUY -> toQ (getCurrentPercent st a) < toQ (targetPercent a))
     /\ (action r = SELL -> toQ (targetPercent a) < toQ (getCurrentPercent st a)))
  /\ (toQ (getCurrentPercent st a) == toQ (targetPercent a) ->
      getRebalanceAction st a = None).
Proof.
  intros Ha Hl Hpos st. subst st.
  destruct (settled_total l cur Hl) as [_ HT]. rewrite HT in Hpos.
  assert (Hne : ~ qtotal cur l == 0) by lra.
  pose proof (getCurrentPercent_equiv l cur a Ha Hl Hne) as Hp.
  apply fin_equiv_toQ in Hp as [_ Hp].
  destruct (rebalance_cases l cur a Ha Hl) as (d & Hd & ->).
  rewrite (qdifference_percent l cur a Hne) in Hd.
  set (t := toQ (targetPercent a)) in *. set (p := qpercent cur l a) in *.
  assert (Hs : 0 < qtotal cur l / 100).
  { apply Qlt_shift_div_l; lra. }
  set (s := qtotal cur l / 100) in *.
  split.
  - intros r. destruct (lt (Fin (Qabs d)) (Fin 1)) eqn:Habs; [done|].
    intros Hr. injection Hr as <-.
    destruct (lt (Fin 0) (Fin d)) eqn:Hsign; cbn [action].
    + apply lt_fin in Hsign. split; [intros _|done]. rewrite Hp.
      destruct (Qlt_le_dec p t) as [Hlt|Hle]; [done|].
      assert ((t - p) * s <= 0) by nra. lra.
    + apply lt_fin_false in Hsign. apply lt_fin_false in Habs.
      split; [done|intros _]. rewrite Hp.
      destruct (Qlt_le_dec t p) as [Hlt|Hle]; [done|].
      assert (0 <= (t - p) * s) by nra.
      assert (Hz : d == 0) by lra. rewrite Hz in Habs. by destruct Habs.
  - intros Heq. rewrite Hp in Heq.
    assert (Hz : d == 0) by (rewrite Hd, Heq; ring).
    rewrite Hz. reflexivity.
Qed.

(** Witness of X3 on scenario B: the coin holding all the value is over
    its target of 50%. *)
Lemma rebalance_direction_witness :
  well_formed coinB1 = true
  /\ Forall (fun b => well_formed b = true) scenarioB
  /\ 0 < toQ (totalValue (settle scenarioB "eur"))
  /\ toQ (targetPercent coinB1) < toQ (getCurrentPercent (settle scenarioB "eur") coinB1).
Proof.
  assert (H1 : well_formed coinB1 = true) by reflexivity.
  assert (H2 : Forall (fun b => well_formed b = true) scenarioB)
    by (repeat constructor).
  assert (H3 : 0 < toQ (totalValue (settle scenarioB "eur"))) by reflexivity.
  split; [exact H1|]. split; [exact H2|]. split; [exact H3|].
  destruct (rebalance_direction scenarioB "eur" coinB1 H1 H2 H3) as [H _].
  by apply (H _ eq_refl).
Defined.

(** X4. Whenever the planner returns an action its amount is at least
    one unit of currency, and for a positive price the units to trade
    times the price give back the amount. *)
Theorem rebalance_sizing (l : list asset) (cur : string) (a : asset) (r : rebalance) :
  well_formed a = true ->
  Forall (fun b => well_formed b = true) l ->
  getRebalanceAction (settle l cur) a = Some r ->
  is_fin (amount r) = true
  /\ 1 <= toQ (amount r)
  /\ (0 < toQ (price_in cur a) ->
      is_fin (units r) = true
      /\ toQ (units r) * toQ (price_in cur a) == toQ (amount r)).
Proof.
  intros Ha Hl.
  destruct (rebalance_cases l cur a Ha Hl) as (d & _ & ->).
  destruct (lt (Fin (Qabs d)) (Fin 1)) eqn:Habs; [done|].
  apply lt_fin_false in Habs.
  intros Hr. injection Hr as <-. cbn [amount units toQ is_fin].
  split; [done|]. split; [lra|].
  pose proof (well_formed_price cur a Ha) as Hb.
  destruct (price_in cur a) as [p| | | |]; try done; cbn [toQ];
    try (intros H; by apply Qlt_irrefl in H).
  intros Hp. rewrite (proj2 (lt_fin 0 p) Hp). rewrite div_fin by lra.
  cbn [Math_abs to_number toQ is_fin]. split; [done|].
  change (Math_abs (Fin (d / p))) with (Fin (Qabs (d / p))). cbn [toQ].
  unfold Qdiv. rewrite Qabs_Qmult, Qabs_Qinv, (Qabs_pos p) by lra.
  field. lra.
Qed.

(** Witness of X4 on scenario B: selling half a coin at 100 raises 50. *)
Lemma rebalance_sizing_witness :
  well_formed coinB1 = true
  /\ Forall (fun b => well_formed b = true) scenarioB
  /\ exists r, getRebalanceAction (settle scenarioB "eur") coinB1 = Some r
              /\ toQ (units r) * 100 == toQ (amount r).
Proof.
  assert (H1 : well_formed coinB1 = true) by reflexivity.
  assert (H2 : Forall (fun b => well_formed b = true) scenarioB)
    by (repeat constructor).
  split; [exact H1|]. split; [exact H2|].
  eexists. split; [reflexivity|].
  destruct (rebalance_sizing scenarioB "eur" coinB1 _ H1 H2 eq_refl) as (_ & _ & H).
  by apply H.
Defined.

(** ** Totals *)

Lemma Qsum_map_sub {A : Type} (f g : A -> Q) (l : list A) :
  Qsum (map (fun a => f a - g a) l) == Qsum (map f l) - Qsum (map g l).
Proof. induction l as [|a l IH]; simpl; [lra|]. rewrite IH. ring. Qed.

(** X5. The total profit is the total value minus the total cost basis. *)
Theorem totalPnL_value_minus_cost (l : list asset) (cur : string) :
  Forall (fun b => well_formed b = true) l ->
  totalPnL (settle l cur)
  ≡ sub (totalValue (settle l cur)) (totalCostBasis (settle l cur)).
Proof.
  intros Hl. rewrite (totalPnL_equiv l cur Hl), (totalCostBasis_equiv l cur Hl).
  simpl totalValue. rewrite (calcTotal_equiv l cur Hl).
  change (sub (Fin (qtotal cur l)) (Fin (Qsum (map qcost l))))
    with (Fin (qtotal cur l - Qsum (map qcost l))).
  apply fin_equiv. apply Qsum_map_sub.
Qed.

(** Witness of X5 on scenario D: 500 of value bought for 400. *)
Lemma totalPnL_value_minus_cost_witness :
  Forall (fun b => well_formed b = true) scenarioD
  /\ totalPnL (settle scenarioD "eur") ≡ sub (Fin 500) (Fin 400).
Proof.
  assert (H : Forall (fun b => well_formed b = true) scenarioD)
    by (repeat constructor).
  split; [exact H|].
  rewrite (totalPnL_value_minus_cost scenarioD "eur" H). reflexivity.
Defined.

Lemma nonneg_toQ (x : jsnum) : nonneg x = true -> is_fin x = true /\ 0 <= toQ x.
Proof.
  destruct x as [q| | | |]; simpl; try done. intros H. split; [done|].
  by apply Qle_bool_iff.
Qed.

Lemma invariant_well_formed (a : asset) :
  asset_invariant a = true -> well_formed a = true.
Proof.
  unfold asset_invariant, well_formed. rewrite !andb_true_iff.
  intros [[[[H1 H2] H3] H4] H5].
  destruct (holdings a), (buyPrice a), (priceEur a), (priceUsd a), (targetPercent a);
    done.
Qed.

Lemma invariant_value_nonneg (cur : string) (a : asset) :
  asset_invariant a = true -> 0 <= qvalue cur a.
Proof.
  unfold asset_invariant. rewrite !andb_true_iff.
  intros [[[[H1 _] H3] H4] _].
  apply nonneg_toQ in H1 as [_ H1]. apply nonneg_toQ in H3 as [_ H3].
  apply nonneg_toQ in H4 as [_ H4].
  unfold qvalue, qprice, price_in.
  destruct (String.eqb cur "eur"); by apply Qmult_le_0_compat.
Qed.

Lemma Qsum_member_le {A : Type} (f : A -> Q) (l : list A) (a : A) :
  Forall (fun b => 0 <= f b) l -> In a l ->
  0 <= f a <= Qsum (map f l).
Proof.
  induction 1 as [|b l Hb Hl IH]; intros Hin; [done|]. simpl.
  assert (Hs : 0 <= Qsum (map f l)).
  { clear IH Hin. induction Hl as [|c l Hc _ IH]; simpl; lra. }
  destruct Hin as [-> | Hin]; [lra|].
  specialize (IH Hin). lra.
Qed.

(** X6. In a list that satisfies the invariants (nothing negative) the
    current percent of every asset of the list lies between 0 and 100. *)
Theorem currentPercent_bounds (l : list asset) (cur : string) (a : asset) :
  invariants (settle l cur) ->
  In a l ->
  exists p, getCurrentPercent (settle l cur) a = Fin p /\ 0 <= p <= 100.
Proof.
  unfold invariants. simpl assets. intros Hinv Hin.
  assert (Hl : Forall (fun b => well_formed b = true) l).
  { eapply Forall_impl; [exact Hinv|]. apply invariant_well_formed. }
  assert (Ha : well_formed a = true)
    by (apply (proj1 (Forall_forall _ l) Hl), list_elem_of_In, Hin).
  assert (Hv : 0 <= qvalue cur a <= qtotal cur l).
  { apply Qsum_member_le; [|done].
    eapply Forall_impl; [exact Hinv|]. apply invariant_value_nonneg. }
  destruct (Qeq_dec (qtotal cur l) 0) as [H0|Hne].
  { exists 0. split; [by apply getCurrentPercent_zero|lra]. }
  pose proof (getCurrentPercent_equiv l cur a Ha Hl Hne) as Hp.
  apply equiv_fin_inv in Hp as (p & -> & Hp).
  exists p. split; [done|]. rewrite Hp. unfold qpercent.
  set (v := qvalue cur a) in *. set (t := qtotal cur l) in *.
  assert (Ht : 0 < t) by lra.
  assert (Hw : v == v / t * t) by (field; lra).
  set (w := v / t) in *.
  split; nra.
Qed.

(** Witness of X6 on scenario B. *)
Lemma currentPercent_bounds_witness :
  invariants (settle scenarioB "eur")
  /\ In coinB1 scenarioB
  /\ exists p, getCurrentPercent (settle scenarioB "eur") coinB1 = Fin p
              /\ 0 <= p <= 100.
Proof.
  assert (H1 : invariants (settle scenarioB "eur")) by (repeat constructor).
  assert (H2 : In coinB1 scenarioB) by (by left).
  split; [exact H1|]. split; [exact H2|].
  exact (currentPercent_bounds scenarioB "eur" coinB1 H1 H2).
Defined.

(** ** Adding and removing assets *)

Lemma state_eta (st : state) : mkState (assets st) (currency st) (totalValue st) = st.
Proof. by destruct st. Qed.

Lemma find_id_none (l : list asset) (i : string) :
  find (fun a => String.eqb (id a) i) l = None <-> ~ In i (map id l).
Proof.
  induction l as [|a l IH]; simpl; [tauto|].
  destruct (String.eqb (id a) i) eqn:E.
  - apply String.eqb_eq in E. split; [done|]. intros H. destruct H. by left.
  - apply String.eqb_neq in E. rewrite IH. tauto.
Qed.

Lemma addAsset_present (st : state) (c : coin) :
  In (coin_id c) (map id (assets st)) -> addAsset st c = st.
Proof.
  intros Hin. unfold addAsset.
  destruct (find _ (assets st)) eqn:E; [done|].
  by apply find_id_none in E.
Qed.

Lemma addAsset_fresh (st : state) (c : coin) :
  ~ In (coin_id c) (map id (assets st)) ->
  assets (addAsset st c)
  = assets st ++ [mkAsset (coin_id c) (toUpperCase (coin_symbol c)) (coin_name c)
                          (coin_thumb c) (Fin 0) (Fin 0) (Fin 0) None
                          (Fin 0) (Fin 0) (Fin 0)].
Proof.
  intros Hin. apply find_id_none in Hin. unfold addAsset. by rewrite Hin.
Qed.

(** X7. Adding a coin makes its id present, and adding it a second time
    changes nothing: a coin is never listed twice. *)
Theorem addAsset_idempotent (st : state) (c : coin) :
  In (coin_id c) (map id (assets (addAsset st c)))
  /\ addAsset (addAsset st c) c = addAsset st c
  /\ (unique_ids (assets st) -> unique_ids (assets (addAsset st c))).
Proof.
  assert (Hin : In (coin_id c) (map id (assets (addAsset st c)))).
  { destruct (in_dec string_dec (coin_id c) (map id (assets st))) as [H|H].
    - by rewrite (addAsset_present st c H).
    - rewrite (addAsset_fresh st c H), map_app. apply in_or_app. right. by left. }
  split; [exact Hin|]. split; [by apply addAsset_present|].
  unfold unique_ids. intros Hu.
  destruct (in_dec string_dec (coin_id c) (map id (assets st))) as [H|H].
  - by rewrite (addAsset_present st c H).
  - rewrite (addAsset_fresh st c H), map_app. simpl.
    apply NoDup_app. split; [done|]. split; [|apply NoDup_singleton].
    intros x Hx Hx'. apply list_elem_of_singleton in Hx'. subst x.
    by apply list_elem_of_In in Hx.
Qed.

Lemma filter_id_absent (l : list asset) (i : string) :
  ~ In i (map id l) ->
  List.filter (fun a => negb (String.eqb (id a) i)) l = l.
Proof.
  induction l as [|a l IH]; simpl; [done|]. intros H.
  destruct (String.eqb (id a) i) eqn:E.
  - apply String.eqb_eq in E. destruct H. by left.
  - simpl. rewrite IH; [done|]. intros H'. apply H. by right.
Qed.

Lemma filter_id_removed (l : list asset) (i : string) :
  ~ In i (map id (List.filter (fun a => negb (String.eqb (id a) i)) l)).
Proof.
  intros H. apply in_map_iff in H as (a & <- & Ha).
  apply filter_In in Ha as [_ Ha]. by rewrite String.eqb_refl in Ha.
Qed.

Lemma NoDup_map_filter {A B : Type} (f : A -> B) (p : A -> bool) (l : list A) :
  NoDup (map f l) -> NoDup (map f (List.filter p l)).
Proof.
  induction l as [|a l IH]; simpl; [done|]. intros H.
  apply NoDup_cons in H as [Ha Hl].
  destruct (p a); simpl; [|by apply IH].
  apply NoDup_cons. split; [|by apply IH].
  intros Hin. apply Ha. apply list_elem_of_In in Hin. apply list_elem_of_In.
  apply in_map_iff in Hin as (b & Hb & Hin). apply in_map_iff.
  exists b. split; [done|]. by apply filter_In in Hin as [Hin _].
Qed.

(** X8. After [removeAsset] no asset carries the removed id; removing an
    id that is not listed changes nothing; removing keeps ids unique; and
    removing a coin right after adding it, when it was not listed before,
    gives back the list as it was. *)
Theorem removeAsset_spec (st : state) (i : string) :
  ~ In i (map id (assets (removeAsset st i)))
  /\ (~ In i (map id (assets st)) -> removeAsset st i = st)
  /\ (unique_ids (assets st) -> unique_ids (assets (removeAsset st i)))
  /\ (forall c, coin_id c = i -> ~ In i (map id (assets st)) ->
        assets (removeAsset (addAsset st c) i) = assets st).
Proof.
  split; [apply filter_id_removed|]. split; [|split].
  - intros H. unfold removeAsset, setAssets.
    rewrite (filter_id_absent _ _ H). apply state_eta.
  - apply NoDup_map_filter.
  - intros c <- H. unfold removeAsset, setAssets. cbn [assets].
    rewrite (addAsset_fresh st c H), List.filter_app. simpl.
    rewrite String.eqb_refl. simpl.
    rewrite (filter_id_absent _ _ H). apply app_nil_r.
Qed.

Lemma Qsum_app (l k : list Q) : Qsum (l ++ k) == Qsum l + Qsum k.
Proof. induction l as [|x l IH]; simpl; [lra|]. rewrite IH. ring. Qed.

(** X9. Adding a coin to a well-formed list changes neither the total
    value, nor the total target percent, nor the current percent of any
    asset: the new asset comes with no holdings and no target. *)
Theorem addAsset_keeps_valuation (l : list asset) (cur : string) (c : coin) :
  Forall (fun b => well_formed b = true) l ->
  let l' := assets (addAsset (settle l cur) c) in
  Forall (fun b => well_formed b = true) l'
  /\ totalValue (settle l' cur) ≡ totalValue (settle l cur)
  /\ totalTargetPercent (settle l' cur) ≡ totalTargetPercent (settle l cur)
  /\ forall a, getCurrentPercent (settle l' cur) a ≡ getCurrentPercent (settle l cur) a.
Proof.
  intros Hl l'. subst l'.
  destruct (in_dec string_dec (coin_id c) (map id l)) as [H|H].
  { rewrite (addAsset_present (settle l cur) c H). by repeat split. }
  rewrite (addAsset_fresh (settle l cur) c H). cbn [assets settle].
  set (n := mkAsset _ _ _ _ _ _ _ _ _ _ _).
  assert (Hn : well_formed n = true) by done.
  assert (Hvn : qvalue cur n == 0) by (unfold qvalue; simpl toQ; ring).
  assert (Hl' : Forall (fun b => well_formed b = true) (l ++ [n])).
  { apply Forall_app. split; [done|]. by constructor. }
  assert (HT : qtotal cur (l ++ [n]) == qtotal cur l).
  { unfold qtotal. rewrite map_app, Qsum_app. cbn [map Qsum fold_right].
    rewrite Hvn. ring. }
  assert (HTe : calcTotal (l ++ [n]) cur ≡ calcTotal l cur).
  { rewrite (calcTotal_equiv _ cur Hl'), (calcTotal_equiv _ cur Hl).
    by apply fin_equiv. }
  assert (Htarget : forall k, Forall (fun b => well_formed b = true) k ->
            totalTargetPercent (settle k cur)
            ≡ Fin (Qsum (map (fun a => toQ (targetPercent a)) k))).
  { intros k Hk. unfold totalTargetPercent. cbn [assets settle].
    apply (reduce_add_sum0 (fun a => or (targetPercent a) (Fin 0))).
    eapply Forall_impl; [exact Hk|]. intros a Ha.
    by apply or_zero_bounded, well_formed_target. }
  split; [exact Hl'|]. split; [exact HTe|]. split.
  - rewrite (Htarget _ Hl'), (Htarget _ Hl). apply fin_equiv.
    rewrite map_app, Qsum_app. cbn [map Qsum fold_right].
    change (toQ (targetPercent n)) with 0. ring.
  - intros a. unfold getCurrentPercent. cbn [totalValue settle].
    rewrite (is_zero_proper _ _ HTe).
    destruct (is_zero (calcTotal l cur)); [done|].
    change (getAssetValue (mkState (l ++ [n]) cur (calcTotal (l ++ [n]) cur)) a)
      with (getAssetValue (mkState l cur (calcTotal l cur)) a).
    by rewrite HTe.
Qed.

(** Witness of X9: adding dogecoin to scenario B keeps bitcoin at 100%
    of the value. *)
Lemma addAsset_keeps_valuation_witness :
  Forall (fun b => well_formed b = true) scenarioB
  /\ getCurrentPercent
       (settle (assets (addAsset (settle scenarioB "eur")
                                 (mkCoin "doge" "doge" "Dogecoin" ""))) "eur") coinB1
     ≡ Fin 100.
Proof.
  assert (H1 : Forall (fun b => well_formed b = true) scenarioB)
    by (repeat constructor).
  split; [exact H1|].
  destruct (addAsset_keeps_valuation scenarioB "eur"
              (mkCoin "doge" "doge" "Dogecoin" "") H1) as (_ & _ & _ & H).
  rewrite (H coinB1). reflexivity.
Defined.

(** ** Editing assets *)

Lemma set_field_id (a : asset) (f : field) (v : option string) :
  id (set_field a f v) = id a.
Proof. by destruct f. Qed.

Lemma map_id_map_if (c : asset -> bool) (g : asset -> asset) (l : list asset) :
  (forall a, id (g a) = id a) ->
  map id (map (fun a => if c a then g a else a) l) = map id l.
Proof.
  intros Hg. rewrite map_map. apply map_ext. intros a. by destruct (c a).
Qed.

(** X10. No edit and no price merge adds, removes, reorders or renames
    an asset: the list of ids is the same before and after [updateAsset],
    [updateHoldings], [updateTarget] and the price merge of a new coin. *)
Theorem updates_keep_ids (st : state) (i : string) :
  (forall f v, map id (assets (updateAsset st i f v)) = map id (assets st))
  /\ (forall v, map id (assets (updateHoldings st i v)) = map id (assets st))
  /\ (forall v, map id (assets (updateTarget st i v)) = map id (assets st))
  /\ (forall data, map id (mergeNewPrice data i (assets st)) = map id (assets st)).
Proof.
  repeat split; intros; cbn [assets updateAsset updateHoldings updateTarget setAssets];
    unfold mergeNewPrice;
    apply (map_id_map_if (fun a => String.eqb (id a) i)); intros a;
    try done; apply set_field_id.
Qed.

(** X11. [updateAsset] touches only the assets that carry the given id
    and, in those, only the given field: an asset with another id stays
    as it is, an id that is not listed leaves the state as it is, and in
    an asset with the id every field but the edited one is kept. The
    edited field holds the category as given, or [parseFloat(value) || 0]. *)
Theorem updateAsset_frame (st : state) (i : string) (f : field) (v : option string) :
  (~ In i (map id (assets st)) -> updateAsset st i f v = st)
  /\ forall (k : nat) (a : asset),
      assets st !! k = Some a ->
      (id a <> i -> assets (updateAsset st i f v) !! k = Some a)
      /\ (id a = i ->
          exists b,
            assets (updateAsset st i f v) !! k = Some b
            /\ id b = id a /\ symbol b = symbol a /\ name b = name a
            /\ thumb b = thumb a /\ priceEur b = priceEur a
            /\ priceUsd b = priceUsd a /\ change24h b = change24h a
            /\ holdings b = (if f is holdings_f
                             then or (parseFloat_value v) (Fin 0) else holdings a)
            /\ buyPrice b = (if f is buyPrice_f
                             then or (parseFloat_value v) (Fin 0) else buyPrice a)
            /\ targetPercent b = (if f is targetPercent_f
                                  then or (parseFloat_value v) (Fin 0)
                                  else targetPercent a)
            /\ category b = (if f is category_f then v else category a)).
Proof.
  split.
  - intros Habs. unfold updateAsset, setAssets.
    replace (map _ (assets st)) with (assets st); [apply state_eta|].
    symmetry. rewrite <- (map_id (assets st)) at 2. apply map_ext_in.
    intros a Ha. destruct (String.eqb (id a) i) eqn:E; [|done].
    apply String.eqb_eq in E. destruct Habs. apply in_map_iff. by exists a.
  - intros k a Hk. unfold updateAsset, setAssets. cbn [assets].
    rewrite lookup_map, Hk. cbn [option_map]. split.
    + intros Hne. apply String.eqb_neq in Hne. by rewrite Hne.
    + intros Heq. apply String.eqb_eq in Heq. rewrite Heq.
      eexists. split; [reflexivity|]. by destruct f.
Qed.

Lemma set_field_twice (a : asset) (f : field) (v w : option string) :
  set_field (set_field a f v) f w = set_field a f w.
Proof. by destruct f. Qed.

Lemma set_field_swap (a : asset) (f g : field) (v w : option string) :
  f <> g -> set_field (set_field a f v) g w = set_field (set_field a g w) f v.
Proof. by destruct f, g. Qed.

Lemma map_if_compose (i : string) (g h : asset -> asset) (l : list asset) :
  (forall a, id (g a) = id a) ->
  map (fun a => if String.eqb (id a) i then h a else a)
      (map (fun a => if String.eqb (id a) i then g a else a) l)
  = map (fun a => if String.eqb (id a) i then h (g a) else a) l.
Proof.
  intros Hg. rewrite map_map. apply map_ext. intros a.
  destruct (String.eqb (id a) i) eqn:E; [|by rewrite E].
  by rewrite Hg, E.
Qed.

(** X12. Of two edits of the same field of the same asset the later one
    wins, and edits of two different fields of an asset give the same
    state in either order. *)
Theorem updateAsset_compose (st : state) (i : string) (f g : field)
    (v w : option string) :
  updateAsset (updateAsset st i f v) i f w = updateAsset st i f w
  /\ (f <> g ->
      updateAsset (updateAsset st i f v) i g w
      = updateAsset (updateAsset st i g w) i f v).
Proof.
  unfold updateAsset, setAssets. cbn [assets currency totalValue].
  split.
  - f_equal. rewrite map_if_compose by (intros; apply set_field_id).
    apply map_ext. intros a. by rewrite set_field_twice.
  - intros Hfg. f_equal. rewrite !map_if_compose by (intros; apply set_field_id).
    apply map_ext. intros a. by rewrite (set_field_swap a f g v w Hfg).
Qed.

(** ** Price merges *)

Lemma or_or_idem (q p : jsnum) :
  or (or q (or (or q p) (Fin 0))) (Fin 0) = or (or q p) (Fin 0).
Proof.
  unfold or. destruct (truthy q) eqn:Eq; [by rewrite Eq|].
  destruct (truthy p) eqn:Ep; [by rewrite Ep|done].
Qed.

(** X13. Merging the same response twice gives what merging it once
    gives. *)
Theorem mergePrices_idempotent (data : gmap string quote) (prev : list asset) :
  mergePrices data (mergePrices data prev) = mergePrices data prev.
Proof.
  unfold mergePrices. rewrite map_map. apply map_ext. intros a. cbn [id priceEur priceUsd
    symbol name thumb holdings targetPercent buyPrice category].
  by rewrite !or_or_idem.
Qed.

(** X14. A quote that is a non-zero number replaces the stored price,
    whatever it was, and the 24h change of a quoted asset is the quoted
    change, or 0 when the quote has none. *)
Theorem mergePrices_quoted (data : gmap string quote) (prev : list asset)
    (k : nat) (a : asset) (q : quote) :
  prev !! k = Some a ->
  data !! id a = Some q ->
  exists b,
    mergePrices data prev !! k = Some b
    /\ (truthy (eur q) = true -> priceEur b = eur q)
    /\ (truthy (usd q) = true -> priceUsd b = usd q)
    /\ change24h b = or (eur_24h_change q) (Fin 0).
Proof.
  intros Hk Hq. unfold mergePrices. rewrite lookup_map, Hk. cbn [option_map].
  eexists. split; [reflexivity|]. cbn [priceEur priceUsd change24h].
  unfold quote_get. rewrite Hq. unfold or.
  split; [intros H; by rewrite !H|]. split; [intros H; by rewrite !H|done].
Qed.

(** Witness of X14: scenario B quoted at 0 euro and 108 dollars. *)
Lemma mergePrices_quoted_witness :
  scenarioB !! 0%nat = Some coinB1
  /\ zero_quote !! id coinB1 = Some (mkQuote (Fin 0) (Fin 108) (Fin 2))
  /\ exists b, mergePrices zero_quote scenarioB !! 0%nat = Some b
              /\ priceUsd b = Fin 108 /\ change24h b = Fin 2.
Proof.
  assert (H1 : scenarioB !! 0%nat = Some coinB1) by reflexivity.
  assert (H2 : zero_quote !! id coinB1 = Some (mkQuote (Fin 0) (Fin 108) (Fin 2)))
    by reflexivity.
  split; [exact H1|]. split; [exact H2|].
  destruct (mergePrices_quoted zero_quote scenarioB 0 coinB1 _ H1 H2)
    as (b & Hb & _ & Hu & Hc).
  exists b. split; [exact Hb|]. split; [by apply Hu|exact Hc].
Defined.

(** ** The listing, again *)

Section SortFixed.
Context {A : Type} (compare : A -> A -> jsnum) (key : A -> Q) (P : A -> Prop).

Hypothesis compare_key :
  forall x y, P x -> P y -> (gt (compare x y) (Fin 0) = true <-> key x < key y).

(** A list already in decreasing order of key is left as it is. *)
Lemma Array_sort_fixed (l : list A) :
  Forall P l ->
  StronglySorted (fun x y => key y <= key x) l ->
  Array_sort compare l = l.
Proof.
  intros HP Hs. induction Hs as [|x l Hs IH Hx]; [done|].
  apply Forall_cons in HP as [Px Pl]. simpl. rewrite (IH Pl).
  destruct l as [|y l']; [done|]. simpl.
  apply Forall_cons in Hx as [Hxy _]. apply Forall_cons in Pl as [Py _].
  destruct (gt (compare x y) (Fin 0)) eqn:E; [|done].
  apply (compare_key x y Px Py) in E. lra.
Qed.
End SortFixed.

Lemma sortedAssets_well_formed (l : list asset) (cur : string) :
  Forall (fun b => well_formed b = true) l ->
  Forall (fun b => well_formed b = true) (sortedAssets (settle l cur)).
Proof.
  intros Hl. unfold sortedAssets. cbn [assets currency settle].
  by rewrite Array_sort_perm.
Qed.

Lemma sortedAssets_sorted (l : list asset) (cur : string) :
  Forall (fun b => well_formed b = true) l ->
  StronglySorted (fun a b => qvalue cur b <= qvalue cur a) (sortedAssets (settle l cur)).
Proof.
  intros Hl.
  assert (Hs : StronglySorted
                 (fun a b => toQ (getAssetValue (settle [] cur) b)
                             <= toQ (getAssetValue (settle [] cur) a))
                 (sortedAssets (settle l cur))).
  { apply (Array_sort_sorted (byValueDesc cur) _ (fun a => well_formed a = true));
      [|exact Hl].
    intros x y. apply byValueDesc_key. }
  pose proof (sortedAssets_well_formed l cur Hl) as Hwf.
  induction Hs as [|a s Hs IH Ha]; [constructor|].
  apply Forall_cons in Hwf as [Hwa Hws].
  constructor; [by apply IH|].
  apply Forall_forall. intros b Hb.
  pose proof (proj1 (Forall_forall _ _) Ha b Hb) as Hab. cbv beta in Hab.
  pose proof (proj1 (Forall_forall _ _) Hws b Hb) as Hwb. cbv beta in Hwb.
  pose proof (getAssetValue_equiv (settle [] cur) a Hwa) as Hva.
  pose proof (getAssetValue_equiv (settle [] cur) b Hwb) as Hvb.
  apply fin_equiv_toQ in Hva as [_ Hva]. apply fin_equiv_toQ in Hvb as [_ Hvb].
  cbn [currency settle] in Hva, Hvb. by rewrite <- Hva, <- Hvb.
Qed.

(** X15. Sorting is idempotent: listing the listing again gives the same
    order, and a list that is already in decreasing order of value is
    listed as it is. *)
Theorem sortedAssets_idempotent (l : list asset) (cur : string) :
  Forall (fun b => well_formed b = true) l ->
  sortedAssets (settle (sortedAssets (settle l cur)) cur) = sortedAssets (settle l cur)
  /\ (StronglySorted (fun a b => toQ (getAssetValue (settle l cur) b)
                                 <= toQ (getAssetValue (settle l cur) a)) l ->
      sortedAssets (settle l cur) = l).
Proof.
  intros Hl.
  assert (Hfix : forall k,
             Forall (fun b => well_formed b = true) k ->
             StronglySorted (fun a b => toQ (getAssetValue (settle [] cur) b)
                                        <= toQ (getAssetValue (settle [] cur) a)) k ->
             sortedAssets (settle k cur) = k).
  { intros k Hk Hs. unfold sortedAssets. cbn [assets currency settle].
    apply (Array_sort_fixed (byValueDesc cur)
             (fun a => toQ (getAssetValue (settle [] cur) a))
             (fun a => well_formed a = true)); [|done|done].
    intros x y. apply byValueDesc_key. }
  split.
  - apply Hfix; [by apply sortedAssets_well_formed|].
    apply (Array_sort_sorted (byValueDesc cur) _ (fun a => well_formed a = true));
      [|exact Hl].
    intros x y. apply byValueDesc_key.
  - intros Hs. by apply Hfix.
Qed.

(** Witness of X15 on the portfolio with a tie. *)
Lemma sortedAssets_idempotent_witness :
  Forall (fun b => well_formed b = true) scenarioTie
  /\ sortedAssets (settle (sortedAssets (settle scenarioTie "eur")) "eur")
     = [coinB1; coinT; coinB2].
Proof.
  assert (H : Forall (fun b => well_formed b = true) scenarioTie)
    by (repeat constructor).
  split; [exact H|].
  rewrite (proj1 (sortedAssets_idempotent scenarioTie "eur" H)). reflexivity.
Defined.

(** ** Category totals *)

Lemma Qsum_perm {A : Type} (f : A -> Q) (l k : list A) :
  Permutation l k -> Qsum (map f l) == Qsum (map f k).
Proof.
  induction 1 as [|x l k _ IH|x y l|l k m _ IH1 _ IH2]; simpl.
  - reflexivity.
  - by rewrite IH.
  - ring.
  - by rewrite IH1.
Qed.

Lemma Forall_filter_bool {A : Type} (P : A -> Prop) (p : A -> bool) (l : list A) :
  Forall P l -> Forall P (List.filter p l).
Proof.
  intros H. apply Forall_forall. intros a Ha.
  apply list_elem_of_In, filter_In in Ha as [Ha _].
  apply (proj1 (Forall_forall _ _) H), list_elem_of_In, Ha.
Qed.

Lemma getCategoryValue_equiv (st : state) (k : list asset) :
  Forall (fun b => well_formed b = true) k ->
  getCategoryValue st k ≡ Fin (Qsum (map (qvalue (currency st)) k)).
Proof.
  intros Hk. unfold getCategoryValue. cbv zeta.
  apply (reduce_add_sum0
           (fun a => mul (holdings a) (or (price_in (currency st) a) (Fin 0)))).
  eapply Forall_impl; [exact Hk|]. intros a Ha. by apply holdings_times_price.
Qed.

Lemma getCategoryTarget_equiv (k : list asset) :
  Forall (fun b => well_formed b = true) k ->
  getCategoryTarget k ≡ Fin (Qsum (map (fun a => toQ (targetPercent a)) k)).
Proof.
  intros Hk. unfold getCategoryTarget.
  apply (reduce_add_sum0 (fun a => or (targetPercent a) (Fin 0))).
  eapply Forall_impl; [exact Hk|]. intros a Ha.
  by apply or_zero_bounded, well_formed_target.
Qed.

(** The three category views split a list of known categories. *)
Lemma Qsum_by_category (f : asset -> Q) (l : list asset) :
  Forall (fun a => known_category a = true) l ->
  Qsum (map f (List.filter
         (fun a => match category a with Some c => String.eqb c "safe" | None => false end) l))
  + Qsum (map f (List.filter
         (fun a => match category a with Some c => String.eqb c "risky" | None => false end) l))
  + Qsum (map f (List.filter
         (fun a => match category a with Some c => String.eqb c "" | None => true end) l))
  == Qsum (map f l).
Proof.
  induction 1 as [|a l Ha _ IH]; [reflexivity|].
  assert (Hcons : forall k, Qsum (map f (a :: k)) == f a + Qsum (map f k))
    by (intros; reflexivity).
  cbn [List.filter]. unfold known_category in Ha.
  destruct (category a) as [c|].
  - destruct (String.eqb c "safe") eqn:E1.
    + assert (E2 : String.eqb c "risky" = false)
        by (apply String.eqb_eq in E1; by subst c).
      assert (E3 : String.eqb c "" = false)
        by (apply String.eqb_eq in E1; by subst c).
      rewrite E2, E3, !Hcons, <- IH. ring.
    + destruct (String.eqb c "risky") eqn:E2; [|done].
      assert (E3 : String.eqb c "" = false)
        by (apply String.eqb_eq in E2; by subst c).
      rewrite E3, !Hcons, <- IH. ring.
  - rewrite !Hcons, <- IH. ring.
Qed.

(** X16. When every asset is tagged safe, risky or not at all, the
    values of the safe, risky and uncategorized views add up to the total
    value, and their targets add up to the total target percent. *)
Theorem category_totals (l : list asset) (cur : string) :
  Forall (fun b => well_formed b = true) l ->
  Forall (fun a => known_category a = true) l ->
  let st := settle l cur in
  add (add (getCategoryValue st (safeAssets st)) (getCategoryValue st (riskyAssets st)))
      (getCategoryValue st (uncategorized st))
  ≡ totalValue st
  /\ add (add (getCategoryTarget (safeAssets st)) (getCategoryTarget (riskyAssets st)))
         (getCategoryTarget (uncategorized st))
     ≡ totalTargetPercent st.
Proof.
  intros Hl Hk st. subst st.
  pose proof (sortedAssets_well_formed l cur Hl) as Hs.
  assert (Hperm : Permutation (sortedAssets (settle l cur)) l)
    by apply Array_sort_perm.
  assert (Hks : Forall (fun a => known_category a = true) (sortedAssets (settle l cur)))
    by (by rewrite Hperm).
  unfold safeAssets, riskyAssets, uncategorized. split.
  - rewrite !getCategoryValue_equiv by (by apply Forall_filter_bool).
    cbn [totalValue settle currency]. rewrite (calcTotal_equiv l cur Hl).
    apply fin_equiv. rewrite (Qsum_by_category _ _ Hks). by apply Qsum_perm.
  - rewrite !getCategoryTarget_equiv by (by apply Forall_filter_bool).
    unfold totalTargetPercent. cbn [assets settle].
    rewrite (reduce_add_sum0 (fun a => or (targetPercent a) (Fin 0))
               (fun a => toQ (targetPercent a)) l).
    + apply fin_equiv. rewrite (Qsum_by_category _ _ Hks). by apply Qsum_perm.
    + eapply Forall_impl; [exact Hl|]. intros a Ha.
      by apply or_zero_bounded, well_formed_target.
Qed.

(** Witness of X16: 100 of safe value, 100 of risky value, nothing
    uncategorized, for a total of 200. *)
Lemma category_totals_witness :
  Forall (fun b => well_formed b = true) scenarioTagged
  /\ Forall (fun a => known_category a = true) scenarioTagged
  /\ add (add (getCategoryValue (settle scenarioTagged "eur")
                                (safeAssets (settle scenarioTagged "eur")))
              (getCategoryValue (settle scenarioTagged "eur")
                                (riskyAssets (settle scenarioTagged "eur"))))
         (getCategoryValue (settle scenarioTagged "eur")
                           (uncategorized (settle scenarioTagged "eur")))
     ≡ Fin 200.
Proof.
  assert (H1 : Forall (fun b => well_formed b = true) scenarioTagged)
    by (repeat constructor).
  assert (H2 : Forall (fun a => known_category a = true) scenarioTagged)
    by (repeat constructor).
  split; [exact H1|]. split; [exact H2|].
  rewrite (proj1 (category_totals scenarioTagged "eur" H1 H2)). reflexivity.
Defined.

(** ** Chart data *)

Section PositivePrefix.
Context {A : Type} (key : A -> Q) (P : A -> Prop) (pos : A -> bool).

Hypothesis pos_key : forall x, P x -> (pos x = true <-> 0 < key x).

(** In a list in decreasing order of key the elements of positive key
    come first, so filtering them keeps every position. *)
Lemma filter_positive_prefix (l : list A) :
  Forall P l ->
  StronglySorted (fun x y => key y <= key x) l ->
  forall (i : nat) (a : A), List.filter pos l !! i = Some a -> l !! i = Some a.
Proof.
  intros HP Hs. induction Hs as [|x l Hs IH Hx]; intros i a; [done|].
  apply Forall_cons in HP as [Px Pl]. simpl.
  destruct (pos x) eqn:E.
  - destruct i as [|i]; [done|]. simpl. by apply IH.
  - assert (Hnone : List.filter pos l = []).
    { clear IH Hs. induction l as [|y l IHl]; [done|]. simpl.
      apply Forall_cons in Hx as [Hxy Hx]. apply Forall_cons in Pl as [Py Pl].
      destruct (pos y) eqn:Ey; [|by apply IHl].
      apply (pos_key y Py) in Ey.
      assert (Hx0 : ~ 0 < key x).
      { intros H0. apply (pos_key x Px) in H0. congruence. }
      cbv beta in Hxy. lra. }
    by rewrite Hnone.
Qed.
End PositivePrefix.

Lemma findIndex_from_lookup (l : list asset) (i : nat) (a : asset) (z : Z) :
  NoDup (map id l) ->
  l !! i = Some a ->
  findIndex_from (fun b => String.eqb (id b) (id a)) l z = (z + Z.of_nat i)%Z.
Proof.
  revert i z. induction l as [|x l IH]; intros i z Hnd Hi; [done|].
  simpl in Hnd. apply NoDup_cons in Hnd as [Hx Hnd]. simpl.
  destruct i as [|i].
  - injection Hi as ->. rewrite String.eqb_refl. lia.
  - simpl in Hi. destruct (String.eqb (id x) (id a)) eqn:E.
    + apply String.eqb_eq in E. destruct Hx. rewrite E.
      apply list_elem_of_In, in_map. eapply list_elem_of_In, list_elem_of_lookup_2, Hi.
    + rewrite (IH i (z + 1)%Z Hnd Hi). lia.
Qed.

Lemma color_at_defined (i : nat) :
  is_Some (color_at (Z.rem (Z.of_nat i) (Z.of_nat (length colors)))).
Proof.
  unfold color_at. change (length colors) with 8%nat.
  pose proof (Z.rem_bound_pos (Z.of_nat i) (Z.of_nat 8)) as H.
  destruct (Z.ltb_spec (Z.rem (Z.of_nat i) (Z.of_nat 8)) 0) as [Hlt|Hge]; [lia|].
  apply lookup_lt_is_Some. change (length colors) with 8%nat. lia.
Qed.

(** X17. With unique ids, the slice at position [i] of the current
    allocation chart is the asset at position [i] of the listing, and it
    is drawn in the colour of that asset's card, which is one of the
    palette. *)
Theorem currentAllocationData_colors (l : list asset) (cur : string) :
  Forall (fun b => well_formed b = true) l ->
  unique_ids l ->
  let st := settle l cur in
  forall (i : nat) (e : slice),
    currentAllocationData st !! i = Some e ->
    exists a,
      sortedAssets st !! i = Some a
      /\ label e = symbol a
      /\ value e = getAssetValue st a
      /\ color e = assetColor st a
      /\ is_Some (color e).
Proof.
  intros Hl Hu st i e He. subst st.
  unfold currentAllocationData in He. rewrite list_lookup_imap in He.
  destruct (List.filter _ _ !! i) as [a|] eqn:Hf; [|done].
  injection He as <-.
  pose proof (sortedAssets_well_formed l cur Hl) as Hwf.
  assert (Ha : sortedAssets (settle l cur) !! i = Some a).
  { apply (filter_positive_prefix (qvalue cur) (fun b => well_formed b = true)
             (fun b => gt (getAssetValue (settle l cur) b) (Fin 0)));
      [|done|by apply sortedAssets_sorted|done].
    intros x Hx. pose proof (getAssetValue_equiv (settle l cur) x Hx) as Hv.
    apply equiv_fin_inv in Hv as (v & -> & Hv). cbn [currency settle] in Hv.
    unfold gt. rewrite lt_fin. by rewrite Hv. }
  exists a. split; [exact Ha|]. cbn [label value color].
  split; [done|]. split; [done|]. split; [|apply color_at_defined].
  unfold assetColor, findIndex.
  rewrite (findIndex_from_lookup _ i a 0%Z); [done| |exact Ha].
  unfold unique_ids in Hu.
  assert (Hperm : Permutation (sortedAssets (settle l cur)) l)
    by apply Array_sort_perm.
  by rewrite Hperm.
Qed.

(** Witness of X17 on the portfolio with a tie: the second slice is
    cardano, in the second colour of the palette. *)
Lemma currentAllocationData_colors_witness :
  Forall (fun b => well_formed b = true) scenarioTie
  /\ unique_ids scenarioTie
  /\ exists a, sortedAssets (settle scenarioTie "eur") !! 1%nat = Some a
              /\ symbol a = "ADA" /\ assetColor (settle scenarioTie "eur") a = Some "#F5D547".
Proof.
  assert (H1 : Forall (fun b => well_formed b = true) scenarioTie)
    by (repeat constructor).
  assert (H2 : unique_ids scenarioTie).
  { unfold unique_ids. apply NoDup_ListNoDup. repeat constructor; simpl; intuition congruence. }
  split; [exact H1|]. split; [exact H2|].
  destruct (currentAllocationData_colors scenarioTie "eur" H1 H2 1%nat _ eq_refl)
    as (a & Ha & Hlabel & _ & Hcolor & _).
  exists a. split; [exact Ha|]. split; [by rewrite <- Hlabel|by rewrite <- Hcolor].
Defined.

Lemma map_imap_const {A B C : Type} (g : B -> C) (h : A -> C) (l : list A) :
  forall f : nat -> A -> B,
    (forall i a, g (f i a) = h a) -> map g (imap f l) = map h l.
Proof.
  induction l as [|x l IH]; intros f Hf; [done|]. simpl.
  rewrite Hf. f_equal. apply IH. intros i a. apply Hf.
Qed.

Lemma Qsum_filter_zero {A : Type} (f : A -> Q) (p : A -> bool) (l : list A) :
  Forall (fun a => p a = false -> f a == 0) l ->
  Qsum (map f (List.filter p l)) == Qsum (map f l).
Proof.
  induction 1 as [|a l Ha _ IH]; [reflexivity|]. simpl.
  destruct (p a); simpl; [by rewrite IH|]. rewrite IH, Ha by done. ring.
Qed.

Lemma invariant_target_nonneg (a : asset) :
  asset_invariant a = true -> 0 <= toQ (targetPercent a).
Proof.
  unfold asset_invariant. rewrite !andb_true_iff. intros [_ H].
  destruct (targetPercent a) as [t| | | |]; try done. simpl in *.
  apply andb_true_iff in H as [H _]. by apply Qle_bool_iff.
Qed.

(** X18. In a list that satisfies the invariants the slices of the
    current allocation chart are positive and add up to the total value,
    and the slices of the target chart are positive and add up to the
    total target percent: the assets left out of a chart weigh nothing. *)
Theorem chart_totals (l : list asset) (cur : string) :
  invariants (settle l cur) ->
  let st := settle l cur in
  Forall (fun e => 0 < toQ (value e)) (currentAllocationData st)
  /\ Qsum (map (fun e => toQ (value e)) (currentAllocationData st))
     == toQ (totalValue st)
  /\ Forall (fun e => 0 < toQ (value e)) (targetAllocationData st)
  /\ Qsum (map (fun e => toQ (value e)) (targetAllocationData st))
     == toQ (totalTargetPercent st).
Proof.
  intros Hinv st. subst st. unfold invariants in Hinv. cbn [assets settle] in Hinv.
  assert (Hl : Forall (fun b => well_formed b = true) l).
  { eapply Forall_impl; [exact Hinv|]. apply invariant_well_formed. }
  assert (Hperm : Permutation (sortedAssets (settle l cur)) l)
    by apply Array_sort_perm.
  assert (Hsinv : Forall (fun a => asset_invariant a = true) (sortedAssets (settle l cur)))
    by (by rewrite Hperm).
  destruct (settled_total l cur Hl) as [_ HT].
  assert (Hval : forall a, well_formed a = true ->
             getAssetValue (settle l cur) a = Fin (toQ (getAssetValue (settle l cur) a))
             /\ toQ (getAssetValue (settle l cur) a) == qvalue cur a).
  { intros a Ha. pose proof (getAssetValue_equiv (settle l cur) a Ha) as Hv.
    apply equiv_fin_inv in Hv as (v & Hv & Hq). rewrite Hv. by split. }
  assert (Htp : forall a, well_formed a = true ->
             or (targetPercent a) (Fin 0) = Fin (toQ (or (targetPercent a) (Fin 0)))
             /\ toQ (or (targetPercent a) (Fin 0)) == toQ (targetPercent a)).
  { intros a Ha. pose proof (or_zero_bounded _ (well_formed_target a Ha)) as Hv.
    apply equiv_fin_inv in Hv as (v & Hv & Hq). rewrite Hv. by split. }
  unfold currentAllocationData, targetAllocationData.
  split; [|split; [|split]].
  - apply Forall_forall. intros e He. apply list_elem_of_lookup in He as [i He].
    rewrite list_lookup_imap in He.
    destruct (List.filter _ _ !! i) as [a|] eqn:Hf; [|done]. injection He as <-.
    apply list_elem_of_lookup_2, list_elem_of_In, filter_In in Hf as [Hin Hf].
    apply list_elem_of_In in Hin.
    pose proof (invariant_well_formed a (proj1 (Forall_forall _ _) Hsinv a Hin)) as Ha.
    cbn [value]. unfold gt in Hf. destruct (Hval a Ha) as [Hv _].
    rewrite Hv in Hf. by apply lt_fin in Hf.
  - rewrite (map_imap_const _ (fun a => toQ (getAssetValue (settle l cur) a))) by done.
    rewrite Qsum_filter_zero.
    + rewrite (Qsum_perm _ _ _ Hperm), HT. unfold qtotal. apply Qsum_map_ext.
      eapply Forall_impl; [exact Hl|]. intros a Ha. cbv beta. by apply Hval.
    + eapply Forall_impl; [exact Hsinv|]. intros a Ha Hp. cbv beta in *.
      destruct (Hval a (invariant_well_formed a Ha)) as [Hv Hq].
      pose proof (invariant_value_nonneg cur a Ha) as H0.
      rewrite Hv in Hp. unfold gt in Hp. apply lt_fin_false in Hp. lra.
  - apply Forall_forall. intros e He.
    apply list_elem_of_In, in_map_iff in He as (a & <- & Ha).
    apply filter_In in Ha as [Hin Ha]. apply list_elem_of_In in Hin.
    pose proof (invariant_well_formed a (proj1 (Forall_forall _ _) Hsinv a Hin)) as Hwa.
    cbn [value]. unfold gt in Ha. destruct (Htp a Hwa) as [Hv _].
    rewrite Hv in Ha. by apply lt_fin in Ha.
  - rewrite map_map. cbn [value]. rewrite Qsum_filter_zero.
    + rewrite (Qsum_perm _ _ _ Hperm).
      assert (HTT : totalTargetPercent (settle l cur)
                    ≡ Fin (Qsum (map (fun a => toQ (targetPercent a)) l))).
      { unfold totalTargetPercent. cbn [assets settle].
        apply (reduce_add_sum0 (fun a => or (targetPercent a) (Fin 0))).
        eapply Forall_impl; [exact Hl|]. intros a Ha.
        by apply or_zero_bounded, well_formed_target. }
      apply fin_equiv_toQ in HTT as [_ HTT]. rewrite HTT. apply Qsum_map_ext.
      eapply Forall_impl; [exact Hl|]. intros a Ha. cbv beta. by apply Htp.
    + eapply Forall_impl; [exact Hsinv|]. intros a Ha Hp. cbv beta in *.
      destruct (Htp a (invariant_well_formed a Ha)) as [Hv Hq].
      pose proof (invariant_target_nonneg a Ha) as H0.
      rewrite Hv in Hp. unfold gt in Hp. apply lt_fin_false in Hp. lra.
Qed.

(** Witness of X18 on scenario B: one slice of 100 in the current chart,
    two of 50 in the target chart. *)
Lemma chart_totals_witness :
  invariants (settle scenarioB "eur")
  /\ Qsum (map (fun e => toQ (value e)) (currentAllocationData (settle scenarioB "eur")))
     == 100
  /\ Qsum (map (fun e => toQ (value e)) (targetAllocationData (settle scenarioB "eur")))
     == 100.
Proof.
  assert (H : invariants (settle scenarioB "eur")) by (repeat constructor).
  split; [exact H|].
  destruct (chart_totals scenarioB "eur" H) as (_ & Hc & _ & Ht).
  split; [rewrite Hc|rewrite Ht]; reflexivity.
Defined.

(** ** A new coin and its first price *)

(** X19. Adding a coin that was not listed and merging the answer to its
    price request leaves the assets that were there untouched and appends
    the new asset with the quoted prices, or 0 where the answer has none. *)
Theorem addAsset_then_price (st : state) (c : coin) (data : gmap string quote) :
  ~ In (coin_id c) (map id (assets st)) ->
  mergeNewPrice data (coin_id c) (assets (addAsset st c))
  = assets st
    ++ [mkAsset (coin_id c) (toUpperCase (coin_symbol c)) (coin_name c) (coin_thumb c)
                (Fin 0) (Fin 0) (Fin 0) None
                (or (quote_get data (coin_id c) eur) (Fin 0))
                (or (quote_get data (coin_id c) usd) (Fin 0))
                (or (quote_get data (coin_id c) eur_24h_change) (Fin 0))].
Proof.
  intros Hfresh. rewrite (addAsset_fresh st c Hfresh).
  unfold mergeNewPrice. rewrite map_app. f_equal.
  - rewrite <- (map_id (assets st)) at 2. apply map_ext_in. intros a Ha.
    destruct (String.eqb (id a) (coin_id c)) eqn:E; [|done].
    apply String.eqb_eq in E. destruct Hfresh. rewrite <- E. by apply in_map.
  - simpl. by rewrite String.eqb_refl.
Qed.

(** Witness of X19: dogecoin joins scenario B and the answer knows only
    bitcoin. *)
Lemma addAsset_then_price_witness :
  ~ In "doge" (map id scenarioB)
  /\ map priceEur (mergeNewPrice zero_quote "doge"
                     (assets (addAsset (settle scenarioB "eur")
                                       (mkCoin "doge" "doge" "Dogecoin" ""))))
     = [Fin 100; Fin 50; Fin 0].
Proof.
  assert (H : ~ In "doge" (map id scenarioB)) by (simpl; intuition congruence).
  split; [exact H|].
  pose proof (addAsset_then_price (settle scenarioB "eur")
                (mkCoin "doge" "doge" "Dogecoin" "") zero_quote H) as E.
  cbn [coin_id] in E. rewrite E. reflexivity.
Defined.

(** ** Buys against sales *)

Lemma signedAmount_error (l : list asset) (cur : string) (a : asset) :
  well_formed a = true ->
  Forall (fun b => well_formed b = true) l ->
  let st := settle l cur in
  (getRebalanceAction st a = None
   /\ signedAmount st a == 0 /\ Qabs (qdifference cur l a) <= 1)
  \/ (getRebalanceAction st a <> None
      /\ signedAmount st a == qdifference cur l a).
Proof.
  intros Ha Hl st. subst st. unfold signedAmount.
  destruct (rebalance_cases l cur a Ha Hl) as (d & Hd & ->).
  destruct (lt (Fin (Qabs d)) (Fin 1)) eqn:Habs.
  - left. apply lt_fin in Habs. rewrite <- Hd. split; [done|]. split; [done|lra].
  - right. split; [done|]. cbn [action amount toQ]. rewrite <- Hd.
    destruct (lt (Fin 0) (Fin d)) eqn:Hs.
    + apply lt_fin in Hs. apply Qabs_pos. lra.
    + apply lt_fin_false in Hs. rewrite Qabs_neg by lra. ring.
Qed.

Lemma Qsum_difference (l : list asset) (cur : string) (k : list asset) :
  Qsum (map (qdifference cur l) k)
  == Qsum (map (fun a => toQ (targetPercent a)) k) * (qtotal cur l / 100)
     - qtotal cur k.
Proof.
  unfold qtotal at 2.
  induction k as [|a k IH]; simpl.
  - unfold Qdiv. ring.
  - rewrite IH. unfold qdifference, Qdiv. ring.
Qed.

Lemma Qsum_cons (x : Q) (l : list Q) : Qsum (x :: l) = x + Qsum l.
Proof. reflexivity. Qed.

Lemma signedAmount_sum (l : list asset) (cur : string) (k : list asset) :
  Forall (fun b => well_formed b = true) l ->
  Forall (fun b => well_formed b = true) k ->
  Qabs (Qsum (map (signedAmount (settle l cur)) k) - Qsum (map (qdifference cur l) k))
  <= inject_Z (Z.of_nat (balancedCount (settle l cur) k)).
Proof.
  intros Hl Hk. unfold balancedCount.
  induction Hk as [|a k Ha Hk IH]; [done|].
  cbn [map List.filter]. rewrite !Qsum_cons.
  destruct (signedAmount_error l cur a Ha Hl) as [(Hn & Hs & Hd)|(Hn & Hs)];
    cbv zeta in *.
  - rewrite Hn. cbn [length]. rewrite Nat2Z.inj_succ, <- Z.add_1_r, inject_Z_plus.
    change (inject_Z 1) with 1.
    apply Qabs_Qle_condition in IH as [IH1 IH2].
    apply Qabs_Qle_condition in Hd as [Hd1 Hd2].
    apply Qabs_Qle_condition. rewrite Hs. split; lra.
  - destruct (getRebalanceAction (settle l cur) a) eqn:E; [|done].
    apply Qabs_Qle_condition in IH as [IH1 IH2].
    apply Qabs_Qle_condition. rewrite Hs. split; lra.
Qed.

(** X20. When the targets add up to 100, what the planner says to buy
    and what it says to sell cancel out, up to one unit of currency for
    each asset it reports as balanced. *)
Theorem buys_match_sales (l : list asset) (cur : string) :
  Forall (fun b => well_formed b = true) l ->
  totalTargetPercent (settle l cur) ≡ Fin 100 ->
  Qabs (Qsum (map (signedAmount (settle l cur)) l))
  <= inject_Z (Z.of_nat (balancedCount (settle l cur) l)).
Proof.
  intros Hl H100.
  assert (HTT : Qsum (map (fun a => toQ (targetPercent a)) l) == 100).
  { assert (H : totalTargetPercent (settle l cur)
                ≡ Fin (Qsum (map (fun a => toQ (targetPercent a)) l))).
    { unfold totalTargetPercent. cbn [assets settle].
      apply (reduce_add_sum0 (fun a => or (targetPercent a) (Fin 0))).
      eapply Forall_impl; [exact Hl|]. intros a Ha.
      by apply or_zero_bounded, well_formed_target. }
    rewrite H in H100. exact H100. }
  assert (Hd : Qsum (map (qdifference cur l) l) == 0).
  { rewrite Qsum_difference, HTT. field. }
  pose proof (signedAmount_sum l cur l Hl Hl) as H. rewrite Hd in H.
  setoid_replace (Qsum (map (signedAmount (settle l cur)) l))
    with (Qsum (map (signedAmount (settle l cur)) l) - 0) using relation Qeq by ring.
  exact H.
Qed.

(** Witness of X20 on scenario B: sell 50 of one coin, buy 50 of the
    other. *)
Lemma buys_match_sales_witness :
  Forall (fun b => well_formed b = true) scenarioB
  /\ totalTargetPercent (settle scenarioB "eur") ≡ Fin 100
  /\ balancedCount (settle scenarioB "eur") scenarioB = 0%nat
  /\ Qabs (Qsum (map (signedAmount (settle scenarioB "eur")) scenarioB)) <= 0.
Proof.
  assert (H1 : Forall (fun b => well_formed b = true) scenarioB)
    by (repeat constructor).
  assert (H2 : totalTargetPercent (settle scenarioB "eur") ≡ Fin 100) by reflexivity.
  split; [exact H1|]. split; [exact H2|]. split; [reflexivity|].
  exact (buys_match_sales scenarioB "eur" H1 H2).
Defined.
